(** * Murfai backend: the upload, story and narration handlers of server.js

    A shallow embedding of the two Express handlers [POST /api/upload] and
    [POST /api/generate].  JavaScript strings are modelled as [string]
    holding the text in UTF-8: a length counts UTF-16 code units, the
    whitespace class is that of [\s] and [trim], and [toLowerCase] is
    the engine's, a parameter that is known on ASCII text.
    [Math.random()] is a double, the external providers are responses
    supplied by an environment, and the handlers' side effects are a
    trace of events threaded through a small monad. *)

From Stdlib Require Import String Ascii List ZArith Lia Bool Arith DecimalString.
Import ListNotations.
Local Open Scope list_scope.
Local Open Scope string_scope.
Local Open Scope nat_scope.

(** ** JavaScript string primitives used by the handlers *)

Module Js.

(** Text is held in UTF-8, the way the literals of this file are
    written; the operations below are those of JavaScript on the string
    so written, whose length is counted in UTF-16 code units. *)

(** The UTF-16 code units a byte of UTF-8 text accounts for: one for the
    first byte of a character of one to three bytes, two for the first
    byte of a character of four bytes, none for a continuation byte. *)
Definition units (c : ascii) : nat :=
  let n := nat_of_ascii c in
  if n <? 128 then 1
  else if n <? 192 then 0
  else if n <? 240 then 1
  else 2.

(** [s.length] *)
Fixpoint js_length (s : string) : nat :=
  match s with
  | EmptyString => 0
  | String c r => units c + js_length r
  end.

(** The whitespace characters, those matched by [\s] and removed by
    [String.prototype.trim], by their bytes: TAB, LF, VT, FF, CR and
    space; U+00A0; U+1680, U+2000 to U+200A, U+2028, U+2029, U+202F,
    U+205F, U+3000 and U+FEFF. *)
Definition space1 (x : nat) : bool :=
  (x =? 32) || ((9 <=? x) && (x <=? 13)).

Definition space2 (x y : nat) : bool := (x =? 194) && (y =? 160).

Definition space3 (x y z : nat) : bool :=
  ((x =? 225) && (y =? 154) && (z =? 128)) ||
  ((x =? 226) && (y =? 128) &&
   (((128 <=? z) && (z <=? 138)) || (z =? 168) || (z =? 169) || (z =? 175))) ||
  ((x =? 226) && (y =? 129) && (z =? 159)) ||
  ((x =? 227) && (y =? 128) && (z =? 128)) ||
  ((x =? 239) && (y =? 187) && (z =? 191)).

(** The number of bytes of the whitespace character [s] starts with, 0
    when it starts with none. *)
Definition space_bytes (s : string) : nat :=
  match s with
  | EmptyString => 0
  | String a r =>
      if space1 (nat_of_ascii a) then 1
      else
        match r with
        | EmptyString => 0
        | String b r' =>
            if space2 (nat_of_ascii a) (nat_of_ascii b) then 2
            else
              match r' with
              | EmptyString => 0
              | String c _ =>
                  if space3 (nat_of_ascii a) (nat_of_ascii b) (nat_of_ascii c)
                  then 3 else 0
              end
        end
  end.

Fixpoint drop (n : nat) (s : string) : string :=
  match n, s with
  | 0, _ => s
  | S k, String _ r => drop k r
  | S _, EmptyString => EmptyString
  end.

(** [s.trimStart()], with [skip] bytes of a whitespace character still
    to pass over. *)
Fixpoint trimStart_from (skip : nat) (s : string) : string :=
  match s with
  | EmptyString => EmptyString
  | String c r =>
      match skip with
      | S k => trimStart_from k r
      | 0 =>
          match space_bytes (String c r) with
          | 0 => String c r
          | S k => trimStart_from k r
          end
      end
  end.

Definition trimStart (s : string) : string := trimStart_from 0 s.

(** Is [s] made of whitespace characters only. *)
Fixpoint all_space_from (skip : nat) (s : string) : bool :=
  match s with
  | EmptyString => true
  | String c r =>
      match skip with
      | S k => all_space_from k r
      | 0 =>
          match space_bytes (String c r) with
          | 0 => false
          | S k => all_space_from k r
          end
      end
  end.

Definition all_space (s : string) : bool := all_space_from 0 s.

(** [s.trimEnd()]: the text is cut where what is left of it is
    whitespace only. *)
Fixpoint trimEnd (s : string) : string :=
  match s with
  | EmptyString => EmptyString
  | String c r =>
      if all_space (String c r) then EmptyString else String c (trimEnd r)
  end.

(** [s.trim()] *)
Definition trim (s : string) : string := trimEnd (trimStart s).

(** [s.split(/\s+/)]: every maximal run of whitespace is one separator; a
    string that starts or ends with whitespace gets an empty first or last
    piece, and the empty string splits into one empty piece.  [skip]
    counts the bytes of a whitespace character still to pass over. *)
Fixpoint split_from (skip : nat) (s : string) : list string :=
  match s with
  | EmptyString => [EmptyString]
  | String c r =>
      match skip with
      | S k => split_from k r
      | 0 =>
          match space_bytes (String c r) with
          | S k =>
              if 0 <? space_bytes (drop k r) then split_from k r
              else EmptyString :: split_from k r
          | 0 =>
              match split_from 0 r with
              | t :: ts => String c t :: ts
              | [] => [String c EmptyString]
              end
          end
      end
  end.

Definition split_ws (s : string) : list string := split_from 0 s.


(** [String.prototype.toLowerCase] is the engine's: the Unicode case
    mapping, which the functions below take as a parameter.  On text
    made of ASCII characters it is the mapping of [A-Z] to [a-z]. *)
Definition ascii_lower_char (c : ascii) : ascii :=
  let n := nat_of_ascii c in
  if (65 <=? n) && (n <=? 90) then ascii_of_nat (n + 32) else c.

Fixpoint ascii_lower (s : string) : string :=
  match s with
  | EmptyString => EmptyString
  | String c r => String (ascii_lower_char c) (ascii_lower r)
  end.

Fixpoint ascii_only (s : string) : bool :=
  match s with
  | EmptyString => true
  | String c r => (nat_of_ascii c <? 128) && ascii_only r
  end.

Definition conforming (toLowerCase : string -> string) : Prop :=
  forall s, ascii_only s = true -> toLowerCase s = ascii_lower s.

(** [hay.includes(needle)] *)
Fixpoint includes (hay needle : string) : bool :=
  prefix needle hay ||
  match hay with
  | EmptyString => false
  | String _ r => includes r needle
  end.

(** [l.join(sep)] *)
Definition join (sep : string) (l : list string) : string := String.concat sep l.

(** Truthiness of a string-or-undefined value, and [a || b] on them. *)
Definition truthy (v : option string) : bool :=
  match v with
  | Some s => negb (String.eqb s "")
  | None => false
  end.

Definition or_else (a b : option string) : option string :=
  if truthy a then a else b.

Definition is_lt (c : ascii) : bool := Ascii.eqb c "<"%char.
Definition is_gt (c : ascii) : bool := Ascii.eqb c ">"%char.

Fixpoint has_gt (s : string) : bool :=
  match s with
  | EmptyString => false
  | String c r => is_gt c || has_gt r
  end.

(** [s.replace(/<[^>]*>/g, '')].  Scanning from the left, a [<] that has a
    [>] somewhere after it starts a match that runs to the first such [>]
    and is deleted; a [<] with no [>] after it starts no match, and then
    nothing after it does either. *)
Fixpoint strip_from (in_tag : bool) (s : string) : string :=
  match s with
  | EmptyString => EmptyString
  | String c r =>
      if in_tag then
        if is_gt c then strip_from false r else strip_from true r
      else if is_lt c then
        if has_gt r then strip_from true r else s
      else String c (strip_from false r)
  end.

Definition strip_tags (s : string) : string := strip_from false s.

(** Does [/<[^>]*>/] match somewhere in [s]: a [<] with a [>] after it. *)
Fixpoint has_tag (s : string) : bool :=
  match s with
  | EmptyString => false
  | String c r => (is_lt c && has_gt r) || has_tag r
  end.

(** [Math.random()] is a double in the half-open unit interval: the
    number [mant / 2^expo] with a significand of at most 53 bits. *)
Record Rand := mkRand { mant : N; expo : N }.

Definition in_unit_interval (r : Rand) : Prop :=
  (mant r < 2 ^ 53)%N /\ (mant r < 2 ^ expo r)%N /\ (expo r <= 1074)%N.

(** The double nearest to the integer [M] scaled by a power of two:
    [M] itself when it fits in 53 bits, else its 53 leading bits rounded
    to nearest, ties to even.  The pair [(q, k)] stands for [q * 2^k]. *)
Definition round53 (M : N) : N * N :=
  let k := (N.size M - 53)%N in
  if (k =? 0)%N then (M, 0%N)
  else
    let q := (M / 2 ^ k)%N in
    let rest := (M mod 2 ^ k)%N in
    let half := (2 ^ (k - 1))%N in
    if (half <? rest)%N || ((rest =? half)%N && N.odd q)
    then (N.succ q, k)
    else (q, k).

(** [Math.floor(Math.random() * len)]: the product is rounded to a
    double before it is floored. *)
Definition random_index (r : Rand) (len : nat) : nat :=
  let '(q, k) := round53 (mant r * N.of_nat len) in
  N.to_nat (if (expo r <=? k)%N
            then (q * 2 ^ (k - expo r))%N
            else (q / 2 ^ (expo r - k))%N).

End Js.

(** ** Story Resolver: the story derivation of [POST /api/generate] *)

Module Story.
Import Js.

Definition stopWords : list string :=
  ["a"; "an"; "the"; "is"; "are"; "was"; "were"; "be"; "been"; "being";
   "have"; "has"; "had"; "do"; "does"; "did"; "will"; "would"; "should";
   "could"; "may"; "might"; "can"; "tell"; "me"; "about"; "of"; "to"; "for";
   "in"; "on"; "at"; "by"; "with"].

(** The filter predicate [w => w.length > 3 && !stopWords.includes(w)]. *)
Definition is_keyword (w : string) : bool :=
  (3 <? js_length w) && negb (existsb (String.eqb w) stopWords).


(** An entry of the story corpus: each of the three fields is a string or
    absent. *)
Record Entry := mkEntry {
  e_story : option string;
  e_content : option string;
  e_text : option string
}.

(** [s.story || s.content || s.text || ''] *)
Definition entry_text (s : Entry) : string :=
  match or_else (e_story s) (or_else (e_content s) (e_text s)) with
  | Some t => t
  | None => ""
  end.

(** [x?.story || x?.content || x?.text || ''] for an element read by
    index, [undefined] when the index is out of range. *)
Definition chosen_text (x : option Entry) : string :=
  match x with
  | Some s => entry_text s
  | None => ""
  end.

(** The functions below call the engine's [toLowerCase]. *)
Section Engine.
Variable toLowerCase : string -> string.

(** [userText.toLowerCase().split(/\s+/).filter(...)] followed by
    [words.slice(0, 3)]. *)
Definition extract_words (userText : string) : list string :=
  filter is_keyword (split_ws (toLowerCase userText)).

Definition extract_keywords (userText : string) : list string :=
  firstn 3 (extract_words userText).

Definition matches (keywords : list string) (s : Entry) : bool :=
  let storyText := toLowerCase (entry_text s) in
  existsb (fun keyword => includes storyText keyword) keywords.

(** [storyAPIs[0].extract] *)
Definition extract (data : list Entry) (keywords : list string) (r : Rand)
  : string :=
  let matchingStories := filter (matches keywords) data in
  if 0 <? List.length matchingStories then
    chosen_text
      (nth_error matchingStories
         (random_index r (List.length matchingStories)))
  else
    chosen_text (nth_error data (random_index r (List.length data))).

(** What the corpus request did: something inside the [try] block threw
    ([fetch], [json()], or [extract] on data that is not a list of
    entries), the response was not [ok], or it was [ok] with a list of
    entries. *)
Inductive CorpusResp :=
| FetchThrows
| RespNotOk
| RespOk (data : list Entry).

(** One round of the loop over [storyAPIs] (the list has one element):
    the values of [story] and [apiSuccess] after it. *)
Definition query_corpus (resp : CorpusResp) (keywords : list string)
    (r : Rand) : string * bool :=
  match resp with
  | RespOk data =>
      let story := extract data keywords r in
      if negb (String.eqb story "") && (50 <? js_length story)
      then (trim (strip_tags story), true)
      else (story, false)
  | RespNotOk => ("", false)
  | FetchThrows => ("", false)
  end.

End Engine.

Definition skeleton_0 : string :=
  "Once upon a time, in a land far, far away, there was a wonderful story about ".

Definition skeleton_1 : string :=
  ". The tale began on a bright sunny morning when everything seemed peaceful and calm. Suddenly, ".

Definition skeleton_2 : string :=
  " appeared and changed everything! The journey was filled with excitement, mystery, and wonder at every turn. Along the way, there were many challenges to overcome and lessons to learn. Friends were made, obstacles were conquered, and hearts were filled with courage. As the days passed, the adventure grew more thrilling and more magical. Every moment brought new surprises and discoveries that amazed everyone. The story of ".

Definition skeleton_3 : string :=
  " taught us about bravery, kindness, and the power of believing in ourselves. In the end, everything worked out beautifully, and joy filled the hearts of all who heard this magnificent tale. And so, the legend of ".

Definition skeleton_4 : string :=
  " lived on forever, inspiring generations to come. They all lived happily ever after, with memories that would last a lifetime!".

(** [keywords[0] || 'adventure'] *)
Definition mainKeyword (keywords : list string) : string :=
  match keywords with
  | k :: _ => if String.eqb k "" then "adventure" else k
  | [] => "adventure"
  end.

(** The template literal of the synthesized story. *)
Definition template (keywords : list string) : string :=
  skeleton_0 ++ join ", " keywords ++
  skeleton_1 ++ mainKeyword keywords ++
  skeleton_2 ++ mainKeyword keywords ++
  skeleton_3 ++ join " and " keywords ++
  skeleton_4.

Definition fallback_story_0 : string :=
  "Once upon a time, in a magical forest filled with wonder, there lived a brave little bunny named Fluffy. Fluffy had the softest white fur and the brightest curious eyes you ever did see. Every morning, she would wake up excited to explore new parts of the enchanted forest. One beautiful spring day, while hopping through a meadow of colorful wildflowers, Fluffy discovered something extraordinary. Hidden beneath a rainbow of petals was a glowing golden carrot that shimmered with magical light! Fluffy couldn't believe her eyes. She carefully picked up the magical carrot and knew immediately that this was something special that needed to be shared. She hopped as fast as her little legs could carry her, gathering all her forest friends together. There was Sammy the squirrel, Oliver the owl, Bella the butterfly, and many more wonderful creatures. When they all saw the magical carrot, their eyes lit up with amazement and joy. Fluffy broke the carrot into pieces and shared it with everyone, and something magical happened. Each friend who ate a piece felt filled with happiness, kindness, and courage. From that day forward, the forest was filled with even more love and friendship than before. Fluffy learned that the best kind of magic comes from sharing and caring for others. And they all played together happily ever after, making beautiful memories every single day!".

Definition fallback_story_1 : string :=
  "There was a tiny mouse named Max who lived in the coziest little hole you could imagine, right at the base of an old oak tree. Max's home was decorated with acorn caps and soft moss, and he loved it dearly. But there was one thing Max loved even more than his cozy home, and that was cheese! Max dreamed about cheese day and night. He loved all kinds: sharp cheddar, creamy brie, Swiss with holes, and tangy blue cheese. One extraordinary morning, Max woke up to the most incredible smell wafting through his tiny door. He followed his nose through the forest, over hills, and across babbling brooks. The delicious aroma led him to an enormous cave he had never seen before. When Max entered the cave, he gasped in absolute amazement. There, sitting in the middle of the cave, was the biggest, most magnificent wheel of golden cheese he had ever laid eyes on! It was as tall as a tree and as wide as a house. Max couldn't believe his incredible luck! But then Max had a wonderful idea. Instead of keeping this treasure all to himself, he decided to share it with everyone in the forest. He scurried back home and invited all his friends: the rabbits, the birds, the deer, the foxes, and even the shy hedgehogs. That evening, they had the most spectacular cheese party the forest had ever seen! There was dancing under the stars, singing beautiful songs, and laughter that echoed through the trees. Everyone enjoyed the delicious cheese and thanked Max for his generous heart. Max realized that sharing something special with friends made it taste even better than keeping it all to himself. They celebrated until the moon was high in the sky, and Max went to bed that night with the biggest smile on his face. What an absolutely wonderful and unforgettable day it had been!".

Definition fallback_story_2 : string :=
  "High above the clouds, in the bright blue sky, lived a friendly dragon named Spark who was quite different from other dragons. While most dragons breathed fire and guarded treasure, Spark had a very special and unique gift. He could paint the most beautiful, vibrant rainbows anyone had ever seen! Every morning, as the sun began to rise and paint the sky with golden light, Spark would wake up feeling excited and ready to create. He had a magical paintbrush that was as long as a tree and bristles that sparkled with all the colors of the rainbow. Spark would fly gracefully through the clouds, dipping his brush in sunlight and rain, mixing colors that no one had ever seen before. He painted magnificent arches of red, orange, yellow, green, blue, indigo, and violet across the vast sky. The children in the villages below would run outside, point up at the sky, and wave enthusiastically at their friend Spark. Their faces would light up with pure joy and wonder every single time they saw his beautiful creations. Parents would stop their work to admire Spark's artwork, and even the grumpiest grown-ups couldn't help but smile when they saw his rainbows. Spark loved knowing that his art brought happiness to so many people and made their days brighter. He would sometimes paint special shapes in his rainbows: hearts for people in love, stars for those who needed hope, and swirls for anyone who needed a reason to smile. Every evening, as the sun began to set, Spark would paint one last magnificent rainbow to say goodnight to all his friends below. He would curl up on a soft cloud, feeling warm and content, knowing he had made the world more beautiful and colorful that day. Spark was truly the happiest dragon in the entire world, and everyone loved him dearly!".


Definition fallbackStories : list string :=
  [fallback_story_0; fallback_story_1; fallback_story_2].

(** [(req.body && req.body.text) ? String(req.body.text).trim() : ''] *)
Definition userText_of (body_text : option string) : string :=
  if truthy body_text
  then match body_text with Some t => trim t | None => "" end
  else "".

Section Resolver.
Variable toLowerCase : string -> string.

(** The values of [keywords] and [story] when the handler reaches the
    speech-synthesis call.  [story] is [None] for [undefined]. *)
Definition resolve (userText : string) (resp : CorpusResp) (r : Rand)
  : list string * option string :=
  if negb (String.eqb userText "") && (10 <? js_length userText) then
    let keywords := extract_keywords toLowerCase userText in
    if 0 <? List.length keywords then
      let '(story, apiSuccess) :=
        query_corpus toLowerCase resp keywords r in
      if negb apiSuccess || String.eqb story ""
      then (keywords, Some (template keywords))
      else (keywords, Some story)
    else (keywords, Some "")
  else
    ([], nth_error fallbackStories
           (random_index r (List.length fallbackStories))).

Definition resolve_story (body_text : option string) (resp : CorpusResp)
    (r : Rand) : option string :=
  snd (resolve (userText_of body_text) resp r).

Definition resolve_keywords (body_text : option string) : list string :=
  fst (resolve (userText_of body_text) FetchThrows (mkRand 0 1)).

End Resolver.

End Story.

(** ** Effects of the handlers: exceptions, a clock and a trace of events *)

Module Eff.

(** A thrown value: [new Error(message)], or anything else, given by what
    [String(err)] renders. *)
Inductive exn :=
| JsError (message : string)
| Thrown (rendered : string).

(** [String(err)] *)
Definition String_of (e : exn) : string :=
  match e with
  | JsError m => "Error: " ++ m
  | Thrown s => s
  end.

(** What leaves the process, in order.  Times are milliseconds since the
    handler read [start = Date.now()]. *)
Inductive event :=
| CallUpload (path : string)
| CallCreate (audio_url : string)
| Sleep (ms : Z)
| CallPoll (id : string) (at_ms : Z)
| BudgetCheck (at_ms : Z)
| Unlink (path : string)
| UnlinkSync (path : string)
| CallCorpus
| CallMurf (text : option string).

Inductive outcome (A : Type) :=
| Val (a : A)
| Exc (e : exn)
| OutOfFuel.
Arguments Val {A} a.
Arguments Exc {A} e.
Arguments OutOfFuel {A}.

(** A computation reads the clock, and yields an outcome, the clock
    afterwards and the events it emitted. *)
Definition M (A : Type) : Type := Z -> outcome A * Z * list event.

Definition ret {A} (a : A) : M A := fun t => (Val a, t, []).

Definition throw {A} (e : exn) : M A := fun t => (Exc e, t, []).

Definition bind {A B} (m : M A) (k : A -> M B) : M B :=
  fun t =>
    match m t with
    | (Val a, t1, tr1) =>
        let '(o, t2, tr2) := k a t1 in (o, t2, (tr1 ++ tr2)%list)
    | (Exc e, t1, tr1) => (Exc e, t1, tr1)
    | (OutOfFuel, t1, tr1) => (OutOfFuel, t1, tr1)
    end.

(** [try { m } catch (err) { h err }] *)
Definition try_catch {A} (m : M A) (h : exn -> M A) : M A :=
  fun t =>
    match m t with
    | (Exc e, t1, tr1) =>
        let '(o, t2, tr2) := h e t1 in (o, t2, (tr1 ++ tr2)%list)
    | r => r
    end.

Definition emit (ev : event) : M unit := fun t => (Val tt, t, [ev]).

Definition pass (ms : Z) : M unit := fun t => (Val tt, (t + ms)%Z, []).

Definition elapsed : M Z := fun t => (Val t, t, []).

Definition out_of_fuel {A} : M A := fun t => (OutOfFuel, t, []).

(** The result of [await fetch(...)] followed by reading the body: a
    throw, a response that is not [ok] with its text, or an [ok] response
    with its parsed JSON. *)
Inductive fetched (J : Type) :=
| Threw (e : exn)
| NotOk (status : nat) (txt : string)
| OkJson (j : J).
Arguments Threw {J} e.
Arguments NotOk {J} status txt.
Arguments OkJson {J} j.

(** A number in a template literal. *)
Definition show (n : nat) : string := NilEmpty.string_of_uint (Nat.to_uint n).

(** What [res.status(code).json(body)] sends; [res.json] alone sends 200. *)
Record Response (V : Type) := mkResponse {
  code : nat;
  content_type : string;
  body : list (string * V)
}.
Arguments mkResponse {V} code content_type body.
Arguments code {V} r.
Arguments content_type {V} r.
Arguments body {V} r.

Definition json_response {V} (code : nat) (body : list (string * V))
  : Response V :=
  mkResponse code "application/json" body.

Definition has_key {V} (k : string) (r : Response V) : bool :=
  existsb (fun kv => String.eqb (fst kv) k) (body r).

End Eff.

Module EffNotations.
Notation "x <- m ;; k" := (Eff.bind m (fun x => k))
  (at level 61, m at next level, right associativity).
Notation "m ;;; k" := (Eff.bind m (fun _ => k))
  (at level 61, right associativity).
End EffNotations.

(** ** Upload Orchestrator: [POST /api/upload] *)

Module Upload.
Import Js Eff EffNotations.

Record File := mkFile { path : string; size : nat }.

Record UploadJson := mkUploadJson { upload_url : option string }.
Record CreateJson := mkCreateJson { id : option string }.
Record PollJson := mkPollJson {
  status : string;
  text : option string;
  error : option string
}.

(** The world outside the handler: what the transcription provider
    answers, how long each timer wait and each status poll really lasts,
    and whether deleting the temporary file fails. *)
Record Env := mkEnv {
  upload_resp : fetched UploadJson;
  create_resp : fetched CreateJson;
  poll_resp : nat -> fetched PollJson;
  sleep_ms : nat -> Z;
  call_ms : nat -> Z;
  unlink_error : option exn;
  unlinkSync_error : option exn;
  stringify : PollJson -> string
}.

Definition timeoutMs : Z := 60000.

Section Handler.
Variable env : Env.

(** [await new Promise(r => setTimeout(r, 1000))] in iteration [i] *)
Definition sleep (i : nat) : M unit :=
  emit (Sleep 1000) ;;; pass (sleep_ms env i).

(** The status request of iteration [i] and the reading of its body. *)
Definition poll (transcriptId : string) (i : nat) : M PollJson :=
  t <- elapsed ;;
  emit (CallPoll transcriptId t) ;;;
  pass (call_ms env i) ;;;
  match poll_resp env i with
  | Threw e => throw e
  | NotOk st txt =>
      throw (JsError ("AssemblyAI poll failed: " ++ show st ++ " " ++ txt))
  | OkJson j => ret j
  end.

(** [Date.now() - start] *)
Definition read_budget : M Z :=
  t <- elapsed ;;
  emit (BudgetCheck t) ;;;
  ret t.

(** The [for (;;)] loop from its iteration [i] on; it yields
    [transcriptText]. *)
Fixpoint poll_loop (fuel : nat) (transcriptId : string) (i : nat)
  : M string :=
  match fuel with
  | O => out_of_fuel
  | S fuel' =>
      sleep i ;;;
      pollJson <- poll transcriptId i ;;
      if String.eqb (status pollJson) "completed" then
        ret (match or_else (text pollJson) (Some "") with
             | Some s => s
             | None => ""
             end)
      else if String.eqb (status pollJson) "error" then
        throw (JsError ("AssemblyAI transcription error: " ++
                        match or_else (error pollJson)
                                (Some (stringify env pollJson)) with
                        | Some s => s
                        | None => ""
                        end))
      else
        t <- read_budget ;;
        if (timeoutMs <? t)%Z then
          throw (JsError "AssemblyAI transcription timed out.")
        else poll_loop fuel' transcriptId (S i)
  end.

(** Step 1: upload to the provider. *)
Definition upload_step (filePath : string) : M string :=
  emit (CallUpload filePath) ;;;
  match upload_resp env with
  | Threw e => throw e
  | NotOk st txt =>
      throw (JsError ("AssemblyAI upload failed: " ++ show st ++ " " ++ txt))
  | OkJson upJson =>
      if truthy (upload_url upJson)
      then ret (match upload_url upJson with Some u => u | None => "" end)
      else throw (JsError "AssemblyAI upload returned no upload_url.")
  end.

(** Step 2: create the transcript. *)
Definition create_step (audioUrl : string) : M string :=
  emit (CallCreate audioUrl) ;;;
  match create_resp env with
  | Threw e => throw e
  | NotOk st txt =>
      throw (JsError ("AssemblyAI transcript create failed: " ++
                      show st ++ " " ++ txt))
  | OkJson createJson =>
      if truthy (id createJson)
      then ret (match id createJson with Some u => u | None => "" end)
      else throw (JsError "AssemblyAI transcript creation failed (no id).")
  end.

(** [fs.unlink(filePath, () => {})]: the callback ignores its error. *)
Definition unlink (filePath : string) (callback : option exn -> M unit)
  : M unit :=
  emit (Unlink filePath) ;;; callback (unlink_error env).

(** [fs.unlinkSync(p)] throws when the deletion fails. *)
Definition unlinkSync (p : string) : M unit :=
  emit (UnlinkSync p) ;;;
  match unlinkSync_error env with
  | Some e => throw e
  | None => ret tt
  end.

(** The body of the [try] block. *)
Definition upload_body (fuel : nat) (req_file : option File)
  : M (Response string) :=
  match req_file with
  | None => ret (json_response 400 [("error", "no_file")])
  | Some file =>
      let filePath := path file in
      audioUrl <- upload_step filePath ;;
      transcriptId <- create_step audioUrl ;;
      transcriptText <- poll_loop fuel transcriptId 0 ;;
      unlink filePath (fun _ => ret tt) ;;;
      ret (json_response 200 [("transcript", transcriptText)])
  end.

(** The [catch] block. *)
Definition upload_catch (req_file : option File) (err : exn)
  : M (Response string) :=
  try_catch
    (match req_file with
     | Some file =>
         if truthy (Some (path file)) then unlinkSync (path file) else ret tt
     | None => ret tt
     end)
    (fun _ => ret tt) ;;;
  ret (json_response 500
         [("error", "upload_failed"); ("detail", String_of err)]).

Definition upload_handler (fuel : nat) (req_file : option File)
  : M (Response string) :=
  try_catch (upload_body fuel req_file) (upload_catch req_file).

End Handler.

(** A timer never fires early and a request takes no negative time. *)
Definition timing_ok (env : Env) : Prop :=
  forall i, (1000 <= sleep_ms env i)%Z /\ (0 <= call_ms env i)%Z.

(** The shape of the events of the poll loop: every status request comes
    right after a timer wait; the budget is read after a request, and
    another round starts only when that reading is within the budget. *)
Inductive loop_trace : list event -> Prop :=
| lt_last tid t : loop_trace [Sleep 1000; CallPoll tid t]
| lt_timeout tid t c :
    (timeoutMs < c)%Z ->
    loop_trace [Sleep 1000; CallPoll tid t; BudgetCheck c]
| lt_round tid t c rest :
    (c <= timeoutMs)%Z ->
    loop_trace rest ->
    loop_trace (Sleep 1000 :: CallPoll tid t :: BudgetCheck c :: rest).

Definition is_provider_call (ev : event) : bool :=
  match ev with
  | CallUpload _ | CallCreate _ | CallPoll _ _ | CallCorpus | CallMurf _ =>
      true
  | _ => false
  end.

Definition poll_times (tr : list event) : list Z :=
  flat_map (fun ev => match ev with CallPoll _ t => [t] | _ => [] end) tr.

(** An ok answer whose status is neither [completed] nor [error]: the
    loop goes on to read the budget. *)
Definition still_pending (resp : fetched PollJson) : bool :=
  match resp with
  | OkJson j =>
      negb (String.eqb (status j) "completed") &&
      negb (String.eqb (status j) "error")
  | _ => false
  end.

(** How the loop ends on the answer [resp] of its last status request,
    with [o] its outcome and [t] the clock when it ends. *)
Definition loop_ending (env : Env) (resp : fetched PollJson)
    (o : outcome string) (t : Z) : Prop :=
  match resp with
  | Threw e => o = Exc e
  | NotOk st txt =>
      o = Exc (JsError ("AssemblyAI poll failed: " ++ show st ++ " " ++ txt))
  | OkJson j =>
      if String.eqb (status j) "completed" then
        o = Val (match text j with Some s => s | None => "" end)
      else if String.eqb (status j) "error" then
        exists msg,
          o = Exc (JsError ("AssemblyAI transcription error: " ++ msg)) /\
          msg = (if truthy (error j)
                 then match error j with Some s => s | None => "" end
                 else stringify env j)
      else
        o = Exc (JsError "AssemblyAI transcription timed out.") /\
        (timeoutMs < t)%Z
  end.

(** The same world, except for what deleting the file does. *)
Definition with_unlink_errors (env : Env) (a s : option exn) : Env :=
  mkEnv (upload_resp env) (create_resp env) (poll_resp env)
        (sleep_ms env) (call_ms env) a s (stringify env).

End Upload.

(** ** Narration Orchestrator and the whole of [POST /api/generate] *)

Module Generate.
Import Js Eff EffNotations Story.

(** The two fields of the speech-synthesis provider's JSON that the
    handler reads. *)
Record MurfJson := mkMurfJson {
  audioFile : option string;
  audioContent : option string
}.

(** A value in the JSON body of a response. *)
Inductive jval :=
| JString (s : string)
| JUndefined
| JObject (j : MurfJson).

Definition of_opt (v : option string) : jval :=
  match v with
  | Some s => JString s
  | None => JUndefined
  end.

(** The surroundings of one request: the engine's [toLowerCase], the
    answer of the story corpus, the value of [Math.random()] and the
    answer of the speech-synthesis provider. *)
Record Env := mkEnv {
  toLowerCase : string -> string;
  corpus : CorpusResp;
  random : Rand;
  murf_resp : fetched MurfJson
}.

Section Handler.
Variable env : Env.

(** Step 2 of the handler: the call to the provider and the branching on
    the shape of its answer. *)
Definition narrate (story : option string) : M (Response jval) :=
  emit (CallMurf story) ;;;
  match murf_resp env with
  | Threw e => throw e
  | NotOk st txt =>
      throw (JsError ("Murf TTS error " ++ show st ++ ": " ++ txt))
  | OkJson murfJson =>
      if truthy (audioFile murfJson) then
        ret (json_response 200
               [("story", of_opt story);
                ("audioUrl", of_opt (audioFile murfJson))])
      else if truthy (audioContent murfJson) then
        ret (json_response 200
               [("story", of_opt story);
                ("base64_audio", of_opt (audioContent murfJson))])
      else
        ret (json_response 200
               [("story", of_opt story); ("murf", JObject murfJson)])
  end.

(** The [catch] block. *)
Definition generate_catch (err : exn) : M (Response jval) :=
  ret (json_response 500
         [("error", JString "generation_failed");
          ("detail", JString (String_of err))]).

(** The narration of a given story, as the caller of the endpoint sees
    it. *)
Definition narration_response (story : option string)
  : M (Response jval) :=
  try_catch (narrate story) generate_catch.

Definition generate_handler (body_text : option string)
  : M (Response jval) :=
  try_catch
    (let userText := userText_of body_text in
     let '(keywords, story) :=
       resolve (toLowerCase env) userText (corpus env) (random env) in
     (if 0 <? List.length keywords then emit CallCorpus else ret tt) ;;;
     narrate story)
    generate_catch.

End Handler.



End Generate.

(** ** The properties under study, as the specification words them *)

Module Stated.
Import Js Eff Story.



Section Engine.
Variable toLowerCase : string -> string.


(** The entries the corpus branch chooses among. *)
Definition candidates (data : list Entry) (keywords : list string)
  : list Entry :=
  match filter (matches toLowerCase keywords) data with
  | [] => data
  | matching => matching
  end.

(** The text the corpus request leaves in [story] before the length
    test: what [extract] returns when the corpus answers, the initial
    empty string otherwise. *)
Definition selected (resp : CorpusResp) (keywords : list string) (r : Rand)
  : string :=
  match resp with
  | RespOk data => extract toLowerCase data keywords r
  | _ => ""
  end.



(** With a keyword, the story is non-empty and free of tags. *)
Definition keyword_story_is_tag_free (body_text : option string)
    (resp : CorpusResp) (r : Rand) : Prop :=
  resolve_keywords toLowerCase body_text <> [] ->
  exists s, resolve_story toLowerCase body_text resp r = Some s /\
            s <> "" /\ has_tag s = false.

(** Every transcript gets a non-empty story. *)
Definition story_never_empty (body_text : option string)
    (resp : CorpusResp) (r : Rand) : Prop :=
  exists s, resolve_story toLowerCase body_text resp r = Some s /\ s <> "".

End Engine.

(** The poll loop ends by returning a non-empty text, by a transcription
    error, or by the timeout, and in no other way. *)
Definition poll_ends_in_three_ways (env : Upload.Env) : Prop :=
  forall fuel tid, 61 <= fuel ->
    let o := fst (fst (Upload.poll_loop env fuel tid 0 0%Z)) in
    (exists s, o = Val s /\ s <> "") \/
    (exists msg,
        o = Exc (JsError ("AssemblyAI transcription error: " ++ msg))) \/
    o = Exc (JsError "AssemblyAI transcription timed out.").

(** No status request is issued once the budget has elapsed. *)
Definition no_poll_after_budget (env : Upload.Env) : Prop :=
  forall fuel tid, 61 <= fuel ->
    forallb (fun t => (t <=? Upload.timeoutMs)%Z)
      (Upload.poll_times (snd (Upload.poll_loop env fuel tid 0 0%Z))) = true.

(** A request without a usable file fails with status 500, an [error] and
    a [detail], and reaches no provider. *)
Definition no_file_is_500 (env : Upload.Env) (req_file : option Upload.File)
  : Prop :=
  forall fuel,
    let '(o, _, tr) := Upload.upload_handler env fuel req_file 0%Z in
    exists r, o = Val r /\ code r = 500 /\
      has_key "error" r = true /\ has_key "detail" r = true /\
      existsb Upload.is_provider_call tr = false.


End Stated.

(** ** Concrete environments and inputs *)

Module Sample.
Import Js Eff Story.

Definition pending : fetched Upload.PollJson :=
  OkJson (Upload.mkPollJson "processing" None None).

(** Every timer fires exactly on time, every request is instantaneous and
    the job never leaves [processing]. *)
Definition nominal : Upload.Env :=
  Upload.mkEnv
    (OkJson (Upload.mkUploadJson (Some "https://cdn.example/upload/1")))
    (OkJson (Upload.mkCreateJson (Some "job-1")))
    (fun _ => pending)
    (fun _ => 1000%Z) (fun _ => 0%Z)
    None None (fun _ => "{}").

(** A clip of silence: the first poll is [completed] with no text. *)
Definition silence : Upload.Env :=
  Upload.mkEnv
    (Upload.upload_resp nominal) (Upload.create_resp nominal)
    (fun _ => OkJson (Upload.mkPollJson "completed" None None))
    (fun _ => 1000%Z) (fun _ => 0%Z)
    None None (fun _ => "{}").

(** The ingestion endpoint answers 401 and the deletion fails too. *)
Definition unauthorized : Upload.Env :=
  Upload.mkEnv
    (NotOk 401 "unauthorized") (Upload.create_resp nominal)
    (fun _ => pending)
    (fun _ => 1000%Z) (fun _ => 0%Z)
    None (Some (JsError "ENOENT: no such file or directory")) (fun _ => "{}").

Definition clip : Upload.File := Upload.mkFile "uploads/3f9a" 4096.

(** [Math.random()] returning 0.5, and returning the double next to two
    thirds, 6004799503160661 / 2^53. *)
Definition half : Rand := mkRand 1 1.
Definition two_thirds : Rand := mkRand 6004799503160661 53.

(** The texts of these scenarios are ASCII, on which the engine's
    [toLowerCase] is [ascii_lower]. *)
Definition engine : string -> string := ascii_lower.

(** The provider answers with neither an audio URL nor inline audio. *)
Definition murf_without_audio : Generate.Env :=
  Generate.mkEnv engine FetchThrows half
    (OkJson (Generate.mkMurfJson None None)).

Definition dragons : string := "tell me about dragons and castles".

(** U+00A0, the no-break space. *)
Definition nbsp : string :=
  String (ascii_of_nat 194) (String (ascii_of_nat 160) EmptyString).

End Sample.

(** ** The page: [recordAndSend] and [base64ToBlob] of Recorder.js *)

Module Client.
Import Js Eff.

(** [binary.charCodeAt(i)]; [None] stands for the [NaN] of an index out
    of range. *)
Definition charCodeAt (s : string) (i : nat) : option nat :=
  match String.get i s with
  | Some c => Some (nat_of_ascii c)
  | None => None
  end.

(** The value a [Uint8Array] keeps of a number stored into it. *)
Definition to_uint8 (v : option nat) : nat :=
  match v with
  | Some n => n mod 256
  | None => 0
  end.

(** [buffer[i] = v] on a typed array: a store out of range is dropped. *)
Fixpoint store (buffer : list nat) (i : nat) (v : nat) : list nat :=
  match buffer, i with
  | [], _ => []
  | _ :: rest, 0 => v :: rest
  | b :: rest, S i' => b :: store rest i' v
  end.

(** [for (let i = ...; i < len; i++) buffer[i] = binary.charCodeAt(i)]
    from the index [i] on; [rounds] bounds the rounds still to run. *)
Fixpoint fill (binary : string) (len rounds i : nat) (buffer : list nat)
  : list nat :=
  match rounds with
  | 0 => buffer
  | S rounds' =>
      if i <? len
      then fill binary len rounds' (S i)
             (store buffer i (to_uint8 (charCodeAt binary i)))
      else buffer
  end.

Record Blob := mkBlob { blob_bytes : list nat; blob_type : string }.

(** [base64ToBlob(base64, mime)]; [atob] is the browser's decoder, which
    throws on text that is not base64.  What it returns is a binary
    string, one character of code below 256 for each byte, held here
    character by character. *)
Definition base64ToBlob (atob : string -> outcome string)
    (base64 mime : string) : outcome Blob :=
  match atob base64 with
  | Val binary =>
      let len := String.length binary in
      let buffer := repeat 0 len in
      Val (mkBlob (fill binary len len 0 buffer) mime)
  | Exc e => Exc e
  | OutOfFuel => OutOfFuel
  end.

(** What [audioRef.current.src] holds. *)
Inductive AudioSrc :=
| SrcUrl (url : string)
| SrcBlob (blob : Blob).

(** The state of the component and of its audio element. *)
Record Ui := mkUi {
  recording : bool;
  transcript : string;
  story : string;
  loading : bool;
  audio_src : option AudioSrc
}.

Inductive cevent :=
| PostUpload (clip : string)
| PostGenerate (text : string)
| Play (src : AudioSrc)
| ConsoleError (err : exn).

(** The parsed body of the answer to [/api/upload] and to
    [/api/generate]: each field the page reads is a string or absent. *)
Record UploadJson := mkUploadJson {
  u_error : option string;
  u_detail : option string;
  u_transcript : option string
}.

Record GenJson := mkGenJson {
  g_story : option string;
  g_audioUrl : option string;
  g_base64_audio : option string
}.

(** A response to [/api/generate]: its [content-type] header if any, and
    what [json()], [arrayBuffer()] and [text()] give. *)
Record GenResp := mkGenResp {
  r_content_type : option string;
  r_json : outcome GenJson;
  r_arrayBuffer : list nat;
  r_text : string
}.

(** The browser and the network as the page meets them.  An [outcome] is
    a settled promise, fulfilled ([Val]) or rejected ([Exc]), or one that
    never settles ([OutOfFuel]).  [capture] is the recording, from
    [getUserMedia] to the [stop] event, and yields the clip; [upload] and
    [generate] are the two requests, [upload] up to the parsing of its
    JSON body; [play_rejection] is what [play()] rejects with, if it
    does. *)
Record Env := mkEnv {
  capture : outcome string;
  upload : string -> outcome UploadJson;
  generate : string -> outcome GenResp;
  atob : string -> outcome string;
  has_audio_element : bool;
  play_rejection : option exn
}.

Definition M (A : Type) : Type := Ui -> outcome A * Ui * list cevent.

Definition ret {A} (a : A) : M A := fun ui => (Val a, ui, []).

Definition throw {A} (e : exn) : M A := fun ui => (Exc e, ui, []).

Definition bind {A B} (m : M A) (k : A -> M B) : M B :=
  fun ui =>
    match m ui with
    | (Val a, ui1, tr1) =>
        let '(o, ui2, tr2) := k a ui1 in (o, ui2, (tr1 ++ tr2)%list)
    | (Exc e, ui1, tr1) => (Exc e, ui1, tr1)
    | (OutOfFuel, ui1, tr1) => (OutOfFuel, ui1, tr1)
    end.

Local Notation "x <- m ;; k" := (bind m (fun x => k))
  (at level 61, m at next level, right associativity).
Local Notation "m ;;; k" := (bind m (fun _ => k))
  (at level 61, right associativity).

(** [await p] *)
Definition await {A} (p : outcome A) : M A := fun ui => (p, ui, []).

Definition emit (ev : cevent) : M unit := fun ui => (Val tt, ui, [ev]).

(** [try { m } catch (err) { h err }] *)
Definition try_catch {A} (m : M A) (h : exn -> M A) : M A :=
  fun ui =>
    match m ui with
    | (Exc e, ui1, tr1) =>
        let '(o, ui2, tr2) := h e ui1 in (o, ui2, (tr1 ++ tr2)%list)
    | r => r
    end.

(** [try { m } finally { fin }]: [fin] runs once [m] has settled, and the
    outcome of [m] stands unless [fin] throws. *)
Definition finally {A} (m : M A) (fin : M unit) : M A :=
  fun ui =>
    match m ui with
    | (OutOfFuel, ui1, tr1) => (OutOfFuel, ui1, tr1)
    | (o, ui1, tr1) =>
        match fin ui1 with
        | (Val _, ui2, tr2) => (o, ui2, (tr1 ++ tr2)%list)
        | (Exc e, ui2, tr2) => (Exc e, ui2, (tr1 ++ tr2)%list)
        | (OutOfFuel, ui2, tr2) => (OutOfFuel, ui2, (tr1 ++ tr2)%list)
        end
    end.

Definition setRecording (b : bool) : M unit :=
  fun ui => (Val tt,
             mkUi b (transcript ui) (story ui) (loading ui) (audio_src ui),
             []).

Definition setTranscript (s : string) : M unit :=
  fun ui => (Val tt,
             mkUi (recording ui) s (story ui) (loading ui) (audio_src ui),
             []).

Definition setStory (s : string) : M unit :=
  fun ui => (Val tt,
             mkUi (recording ui) (transcript ui) s (loading ui) (audio_src ui),
             []).

Definition setLoading (b : bool) : M unit :=
  fun ui => (Val tt,
             mkUi (recording ui) (transcript ui) (story ui) b (audio_src ui),
             []).

(** [a || b] where [b] is a string. *)
Definition or_string (a : option string) (b : string) : string :=
  match or_else a (Some b) with
  | Some s => s
  | None => b
  end.

Section Component.
Variable env : Env.

(** [if (audioRef.current) { audioRef.current.src = src;
    await audioRef.current.play().catch(() => {}); }] *)
Definition play_on_element (src : AudioSrc) : M unit :=
  if has_audio_element env then
    (fun ui => (Val tt,
                mkUi (recording ui) (transcript ui) (story ui) (loading ui)
                     (Some src),
                [])) ;;;
    emit (Play src) ;;;
    try_catch
      (match play_rejection env with
       | Some e => throw e
       | None => ret tt
       end)
      (fun _ => ret tt)
  else ret tt.

(** The audio of a JSON answer: the URL if there is one, else the inline
    audio if there is some, else nothing. *)
Definition play_answer (genJson : GenJson) : M unit :=
  if truthy (g_audioUrl genJson) then
    play_on_element (SrcUrl (or_string (g_audioUrl genJson) ""))
  else if truthy (g_base64_audio genJson) then
    blob2 <- await (base64ToBlob (atob env)
                      (or_string (g_base64_audio genJson) "")
                      "audio/mpeg") ;;
    play_on_element (SrcBlob blob2)
  else ret tt.

(** What the page does with the response to [/api/generate]. *)
Definition show_answer (genResp : GenResp) : M unit :=
  let contentType := or_string (r_content_type genResp) "" in
  if includes contentType "application/json" then
    genJson <- await (r_json genResp) ;;
    setStory (or_string (g_story genJson) "(no story returned)") ;;;
    play_answer genJson
  else if includes contentType "audio/" then
    play_on_element (SrcBlob (mkBlob (r_arrayBuffer genResp) contentType)) ;;;
    setStory "(audio returned and playing)"
  else
    setStory (r_text genResp).

(** What the page does with the parsed answer to [/api/upload]. *)
Definition after_upload (uploadJson : UploadJson) : M unit :=
  if truthy (u_error uploadJson) then
    throw (JsError (or_string (u_detail uploadJson)
                      (or_string (u_error uploadJson) "Upload failed")))
  else
    let text := or_string (u_transcript uploadJson) "" in
    setTranscript (or_string (Some text) "(no transcript)") ;;;
    setLoading true ;;;
    setStory "Generating story..." ;;;
    emit (PostGenerate text) ;;;
    genResp <- await (generate env text) ;;
    show_answer genResp.

(** The body of the [try] block. *)
Definition attempt : M unit :=
  clip <- await (capture env) ;;
  setTranscript "Uploading for transcription..." ;;;
  emit (PostUpload clip) ;;;
  uploadJson <- await (upload env clip) ;;
  after_upload uploadJson.

(** The [catch] block. *)
Definition recover (err : exn) : M unit :=
  emit (ConsoleError err) ;;;
  setTranscript ("Error: " ++ String_of err) ;;;
  setStory "—".

(** The [finally] block. *)
Definition settle : M unit :=
  setLoading false ;;; setRecording false.

Definition recordAndSend : M unit :=
  setRecording true ;;;
  setTranscript "Listening..." ;;;
  setStory "—" ;;;
  finally (try_catch attempt recover) settle.

End Component.

(** The state [useState] and [useRef] start the component in. *)
Definition initial : Ui := mkUi false "—" "—" false None.

(** Every promise the page awaits settles. *)
Definition settles (env : Env) : Prop :=
  capture env <> OutOfFuel /\
  (forall clip, upload env clip <> OutOfFuel) /\
  (forall text, generate env text <> OutOfFuel) /\
  (forall text r, generate env text = Val r -> r_json r <> OutOfFuel) /\
  (forall b, atob env b <> OutOfFuel).

Definition posts_generate (tr : list cevent) : bool :=
  existsb (fun ev => match ev with PostGenerate _ => true | _ => false end) tr.

End Client.

(** ** The page against the two handlers *)

Module Pipeline.
Import Js Eff.

(** [x[k]] on the object a JSON body is parsed into. *)
Fixpoint lookup {V} (k : string) (fields : list (string * V)) : option V :=
  match fields with
  | [] => None
  | (k', v) :: rest => if String.eqb k' k then Some v else lookup k rest
  end.

(** A field of the generate answer as the page reads it.  The handler
    puts an object only under [murf], which the page never reads. *)
Definition text_field (k : string) (fields : list (string * Generate.jval))
  : option string :=
  match lookup k fields with
  | Some (Generate.JString s) => Some s
  | _ => None
  end.

Definition map_outcome {A B} (f : A -> B) (o : outcome A) : outcome B :=
  match o with
  | Val a => Val (f a)
  | Exc e => Exc e
  | OutOfFuel => OutOfFuel
  end.

(** What [uploadResp.json()] gives for a response of the upload
    handler. *)
Definition upload_view (r : Response string) : Client.UploadJson :=
  Client.mkUploadJson
    (lookup "error" (body r)) (lookup "detail" (body r))
    (lookup "transcript" (body r)).

(** The browser, the two providers behind the server, and the server's
    own surroundings. *)
Record World := mkWorld {
  microphone : outcome string;
  decoder : string -> outcome string;
  audio_element : bool;
  autoplay_rejection : option exn;
  stored : string -> Upload.File;
  transcription : Upload.Env;
  fuel : nat;
  generation : Generate.Env;
  serialized : Response Generate.jval -> string
}.

(** What the page gets for a response of the generate handler. *)
Definition generate_view (w : World) (r : Response Generate.jval)
  : Client.GenResp :=
  Client.mkGenResp
    (Some (content_type r))
    (Val (Client.mkGenJson
            (text_field "story" (body r))
            (text_field "audioUrl" (body r))
            (text_field "base64_audio" (body r))))
    []
    (serialized w r).

(** The page's environment when its two requests are served by the
    handlers: every request carries the clip as its file part. *)
Definition page (w : World) : Client.Env :=
  Client.mkEnv
    (microphone w)
    (fun clip =>
       map_outcome upload_view
         (fst (fst (Upload.upload_handler (transcription w) (fuel w)
                      (Some (stored w clip)) 0%Z))))
    (fun text =>
       map_outcome (generate_view w)
         (fst (fst (Generate.generate_handler (generation w)
                      (Some text) 0%Z))))
    (decoder w)
    (audio_element w)
    (autoplay_rejection w).

(** One click on the button. *)
Definition click (w : World) : Client.M unit :=
  Client.recordAndSend (page w).

End Pipeline.

(** ** More vocabulary for the traces of the upload handler *)

Module UploadTrace.
Import Js Eff Upload.

(** Successive requests are at least a second apart, the first one at
    least a second after [t]. *)
Fixpoint spaced_from (t : Z) (times : list Z) : Prop :=
  match times with
  | [] => True
  | u :: rest => (t + 1000 <= u)%Z /\ spaced_from u rest
  end.

Definition is_deletion (ev : event) : bool :=
  match ev with
  | Unlink _ | UnlinkSync _ => true
  | _ => false
  end.

Definition count (p : event -> bool) (tr : list event) : nat :=
  List.length (filter p tr).

(** The ingestion endpoint gave a usable reference. *)
Definition upload_accepted (env : Env) : option string :=
  match upload_resp env with
  | OkJson uj => if truthy (upload_url uj) then upload_url uj else None
  | _ => None
  end.

(** The job was created with a usable identifier. *)
Definition job_created (env : Env) : option string :=
  match create_resp env with
  | OkJson cj => if truthy (id cj) then id cj else None
  | _ => None
  end.

End UploadTrace.

(** ** More concrete environments *)

Module Scenario.
Import Js Eff Story.

(** The job completes at the third poll with a short greeting. *)
Definition greeting : Upload.Env :=
  Upload.mkEnv
    (Upload.upload_resp Sample.nominal) (Upload.create_resp Sample.nominal)
    (fun i => if i <? 2 then Sample.pending
              else OkJson (Upload.mkPollJson "completed" (Some "hi there")
                             None))
    (fun _ => 1003%Z) (fun _ => 120%Z)
    None None (fun _ => "{}").

(** The job completes at the first poll with a greeting of six Cyrillic
    letters. *)
Definition privet : Upload.Env :=
  Upload.mkEnv
    (Upload.upload_resp Sample.nominal) (Upload.create_resp Sample.nominal)
    (fun _ => OkJson (Upload.mkPollJson "completed" (Some "Привет") None))
    (fun _ => 1000%Z) (fun _ => 0%Z)
    None None (fun _ => "{}").

(** The speech provider answers with an audio URL. *)
Definition murf_with_url : Generate.Env :=
  Generate.mkEnv Sample.engine RespNotOk Sample.half
    (OkJson (Generate.mkMurfJson (Some "https://murf.example/a.mp3") None)).

(** The speech provider refuses the request. *)
Definition murf_refuses : Generate.Env :=
  Generate.mkEnv Sample.engine RespNotOk Sample.half
    (NotOk 402 "quota exceeded").

Definition browser (up : Upload.Env) (gen : Generate.Env) : Pipeline.World :=
  Pipeline.mkWorld
    (Val "webm-bytes") (fun _ => Val "ABC") true None
    (fun clip => Upload.mkFile "uploads/3f9a" (String.length clip))
    up 61 gen (fun _ => "{}").

(** A page whose microphone is refused. *)
Definition no_microphone : Client.Env :=
  Client.mkEnv (Exc (Thrown "NotAllowedError: Permission denied"))
    (fun _ => Val (Client.mkUploadJson None None None))
    (fun _ => Exc (Thrown "TypeError: Failed to fetch"))
    (fun _ => Val "") true None.

(** A page that is answered with both an audio URL and inline audio that
    does not decode. *)
Definition both_shapes : Client.Env :=
  Client.mkEnv (Val "webm-bytes")
    (fun _ => Val (Client.mkUploadJson None None (Some "a story please")))
    (fun _ => Val (Client.mkGenResp (Some "application/json")
                     (Val (Client.mkGenJson (Some "Once")
                             (Some "https://murf.example/a.mp3")
                             (Some "%%%")))
                     [] ""))
    (fun _ => Exc (Thrown "InvalidCharacterError")) true
    (Some (Thrown "NotAllowedError: play() failed")).

End Scenario.

Module Corpus.
Import Js Story.

(** A story that names neither dragons nor castles. *)
Definition boat : Entry :=
  mkEntry (Some "The little boat sailed across the quiet lake until the sun went down.")
    None None.

(** A corpus of two stories, one of them about dragons. *)
Definition two_stories : list Entry :=
  [boat;
   mkEntry None
     (Some "Deep in the hills, three dragons kept watch over a sleeping village.")
     None].

(** The second story between two no-break spaces. *)
Definition padded : list Entry :=
  [boat;
   mkEntry None
     (Some (Sample.nbsp
            ++ "Deep in the hills, three dragons kept watch over a sleeping village."
            ++ Sample.nbsp))
     None].

(** A story about dragons with markup and capitals, and blanks around
    it. *)
Definition marked_up : list Entry :=
  [boat;
   mkEntry None None
     (Some "  <p>Three <b>DRAGONS</b> kept watch over the sleeping village.</p><br/> ")].

End Corpus.

Module Bytes.
Import Js.

(** The character codes of a binary string, in order. *)
Definition codes (binary : string) : list nat :=
  map nat_of_ascii (list_ascii_of_string binary).

End Bytes.

(** * Properties *)

(** ** String primitives *)

Section JsFacts.
Import Js.

Lemma trimStart_from_length (s : string) (skip : nat) :
  js_length (trimStart_from skip s) <= js_length s.
Proof.
  revert skip. induction s as [|c r IH]; intros skip; [simpl; lia|].
  cbn [trimStart_from]. destruct skip as [|k].
  - destruct (space_bytes (String c r)) as [|k]; [lia|].
    specialize (IH k). cbn [js_length]. lia.
  - specialize (IH k). cbn [js_length]. lia.
Qed.

Lemma trimEnd_length (s : string) : js_length (trimEnd s) <= js_length s.
Proof.
  induction s as [|c r IH]; [simpl; lia|].
  cbn [trimEnd]. destruct (all_space (String c r)); cbn [js_length]; lia.
Qed.

(** Trimming never lengthens a text. *)
Lemma trim_length (s : string) : js_length (trim s) <= js_length s.
Proof.
  unfold trim, trimStart.
  pose proof (trimEnd_length (trimStart_from 0 s)).
  pose proof (trimStart_from_length s 0). lia.
Qed.

Lemma has_tag_has_gt (s : string) : has_tag s = true -> has_gt s = true.
Proof.
  induction s as [|c r IH]; simpl; [discriminate|].
  intros H. apply orb_true_iff in H. destruct H as [H|H].
  - apply andb_true_iff in H. destruct H as [_ H]. rewrite H. apply orb_true_r.
  - rewrite (IH H). apply orb_true_r.
Qed.

Lemma no_gt_no_tag (s : string) : has_gt s = false -> has_tag s = false.
Proof.
  intros H. destruct (has_tag s) eqn:E; [|reflexivity].
  apply has_tag_has_gt in E. congruence.
Qed.

(** A global replace leaves no match behind, whichever state the scan
    is in. *)
Lemma strip_from_no_tag (s : string) (in_tag : bool) :
  has_tag (strip_from in_tag s) = false.
Proof.
  revert in_tag. induction s as [|c r IH]; intros in_tag; simpl.
  - destruct in_tag; reflexivity.
  - destruct in_tag.
    + destruct (is_gt c); apply IH.
    + destruct (is_lt c) eqn:L.
      * destruct (has_gt r) eqn:G; [apply IH|].
        simpl. rewrite L, G. simpl. now apply no_gt_no_tag.
      * simpl. rewrite L. simpl. apply IH.
Qed.

Lemma strip_tags_no_tag (s : string) : has_tag (strip_tags s) = false.
Proof. apply strip_from_no_tag. Qed.

Lemma has_tag_tail (c : ascii) (r : string) :
  has_tag (String c r) = false -> has_tag r = false.
Proof. simpl. intros H. apply orb_false_iff in H. tauto. Qed.

Lemma trimStart_from_no_tag (s : string) (skip : nat) :
  has_tag s = false -> has_tag (trimStart_from skip s) = false.
Proof.
  revert skip. induction s as [|c r IH]; intros skip H; [reflexivity|].
  cbn [trimStart_from]. pose proof (has_tag_tail c r H) as T.
  destruct skip as [|k].
  - destruct (space_bytes (String c r)) as [|k]; [exact H|now apply IH].
  - now apply IH.
Qed.

Lemma trimEnd_has_gt (s : string) :
  has_gt (trimEnd s) = true -> has_gt s = true.
Proof.
  induction s as [|c r IH]; [easy|].
  cbn [trimEnd]. destruct (all_space (String c r)); [discriminate|].
  cbn [has_gt]. intros H. apply orb_true_iff in H. apply orb_true_iff.
  destruct H as [H|H]; [now left|right; now apply IH].
Qed.

Lemma trimEnd_no_tag (s : string) :
  has_tag s = false -> has_tag (trimEnd s) = false.
Proof.
  induction s as [|c r IH]; [easy|].
  intros H. cbn [has_tag] in H. apply orb_false_iff in H.
  destruct H as [H1 H2].
  cbn [trimEnd]. destruct (all_space (String c r)); [reflexivity|].
  cbn [has_tag]. rewrite (IH H2), orb_false_r.
  destruct (is_lt c); [|reflexivity]. cbn [andb] in H1 |- *.
  destruct (has_gt (trimEnd r)) eqn:G; [|reflexivity].
  apply trimEnd_has_gt in G. congruence.
Qed.

Lemma trim_no_tag (s : string) : has_tag s = false -> has_tag (trim s) = false.
Proof.
  intros H. unfold trim, trimStart.
  now apply trimEnd_no_tag, trimStart_from_no_tag.
Qed.

(** Rounding to 53 bits keeps a product below the bound its exact value
    is a whole unit under. *)
Lemma round53_bound (M n E : N) :
  (M + n <= n * 2 ^ E)%N -> (M < 2 ^ 53 * n)%N ->
  (fst (round53 M) * 2 ^ snd (round53 M) < n * 2 ^ E)%N.
Proof.
  intros Hu H53. unfold round53.
  destruct (N.size M - 53 =? 0)%N eqn:K0.
  - cbn [fst snd]. rewrite N.pow_0_r. lia.
  - apply N.eqb_neq in K0.
    set (k := (N.size M - 53)%N) in *.
    assert (HM : M <> 0%N) by (intros ->; now apply K0).
    assert (Hs : N.size M = (53 + k)%N) by (unfold k; lia).
    rewrite (N.size_log2 M HM) in Hs.
    assert (Hlog : (2 ^ N.log2 M <= M)%N) by (apply N.log2_spec; lia).
    replace (N.log2 M) with (53 + (k - 1))%N in Hlog by lia.
    rewrite N.pow_add_r in Hlog.
    assert (Hp : (2 ^ k = 2 * 2 ^ (k - 1))%N).
    { rewrite <- N.pow_succ_r'. f_equal. lia. }
    assert (Hh : (2 ^ (k - 1) < n)%N).
    { apply (N.mul_lt_mono_pos_l (2 ^ 53)); [reflexivity|lia]. }
    pose proof (N.Div0.div_mod M (2 ^ k)) as D.
    set (q := (M / 2 ^ k)%N) in *. set (rest := (M mod 2 ^ k)%N) in *.
    destruct ((2 ^ (k - 1) <? rest)%N || ((rest =? 2 ^ (k - 1))%N && N.odd q))
      eqn:Up; cbn [fst snd].
    + assert (Hr : (2 ^ (k - 1) <= rest)%N).
      { apply orb_true_iff in Up. destruct Up as [Up|Up].
        - apply N.ltb_lt in Up. lia.
        - apply andb_true_iff in Up. destruct Up as [Up _].
          apply N.eqb_eq in Up. lia. }
      rewrite N.mul_succ_l, (N.mul_comm q). lia.
    + rewrite (N.mul_comm q). lia.
Qed.

(** [Math.floor(Math.random() * len)] indexes a non-empty array within
    its bounds. *)
Lemma random_index_lt (r : Rand) (len : nat) :
  in_unit_interval r -> 0 < len -> random_index r len < len.
Proof.
  intros [H53 [Hlt _]] Hlen. unfold random_index.
  set (n := N.of_nat len). set (m := mant r) in *. set (E := expo r) in *.
  assert (Hn : (0 < n)%N) by lia.
  assert (B : (fst (round53 (m * n)) * 2 ^ snd (round53 (m * n))
               < n * 2 ^ E)%N).
  { apply round53_bound.
    - replace (m * n + n)%N with (n * (m + 1))%N by lia.
      apply N.mul_le_mono_l. lia.
    - apply N.mul_lt_mono_pos_r; [exact Hn|exact H53]. }
  destruct (round53 (m * n)) as [q k]. cbn [fst snd] in B.
  assert (Lt : forall x, (x < n)%N -> N.to_nat x < len) by (intros x; lia).
  apply Lt. destruct (E <=? k)%N eqn:C.
  - apply N.leb_le in C.
    assert (P : (2 ^ k = 2 ^ (k - E) * 2 ^ E)%N).
    { rewrite <- N.pow_add_r. f_equal. lia. }
    rewrite P, N.mul_assoc in B.
    apply N.mul_lt_mono_pos_r in B; [exact B|].
    apply N.neq_0_lt_0, N.pow_nonzero. discriminate.
  - apply N.leb_gt in C.
    assert (P : (2 ^ E = 2 ^ (E - k) * 2 ^ k)%N).
    { rewrite <- N.pow_add_r. f_equal. lia. }
    rewrite P, N.mul_assoc in B.
    apply N.mul_lt_mono_pos_r in B;
      [|apply N.neq_0_lt_0, N.pow_nonzero; discriminate].
    apply N.Div0.div_lt_upper_bound. rewrite N.mul_comm. exact B.
Qed.

Lemma random_index_empty (r : Rand) : random_index r 0 = 0.
Proof.
  unfold random_index. cbn [N.of_nat]. rewrite N.mul_0_r.
  change (round53 0) with (0%N, 0%N). cbv iota beta.
  destruct (expo r <=? 0)%N.
  - now rewrite N.mul_0_l.
  - now rewrite N.Div0.div_0_l.
Qed.








(** The mapping of [A-Z] to [a-z] is a lowercasing an engine may have
    on the texts it is exact on. *)
Lemma ascii_lower_conforming : conforming ascii_lower.
Proof. intros s _. reflexivity. Qed.

End JsFacts.
Section StringFacts.
Import Js.

Lemma length_append (a b : string) :
  String.length (a ++ b) = String.length a + String.length b.
Proof. induction a as [|c a IH]; simpl; [reflexivity|now rewrite IH]. Qed.

Lemma prefix_app (n a b : string) :
  prefix n a = true -> prefix n (a ++ b) = true.
Proof.
  revert a. induction n as [|c n IH]; intros a;
    [intros _; destruct (a ++ b); reflexivity|].
  destruct a as [|c' a]; simpl; [discriminate|].
  destruct (ascii_dec c c'); [apply IH|discriminate].
Qed.

Lemma prefix_self (n : string) : prefix n n = true.
Proof.
  induction n as [|c n IH]; simpl; [reflexivity|].
  destruct (ascii_dec c c); [exact IH|contradiction].
Qed.

Lemma includes_self (n : string) : includes n n = true.
Proof.
  destruct n as [|c n]; [reflexivity|].
  cbn [includes]. rewrite prefix_self. reflexivity.
Qed.

Lemma includes_app_l (a b n : string) :
  includes a n = true -> includes (a ++ b) n = true.
Proof.
  induction a as [|c a IH].
  - simpl. rewrite orb_false_r. intros H.
    destruct n; [|discriminate H]. destruct b; reflexivity.
  - cbn [includes append]. intros H. apply orb_true_iff in H.
    apply orb_true_iff. destruct H as [H|H].
    + left. exact (prefix_app n (String c a) b H).
    + right. now apply IH.
Qed.

Lemma includes_app_r (a b n : string) :
  includes b n = true -> includes (a ++ b) n = true.
Proof.
  intros H. induction a as [|c a IH]; [exact H|].
  cbn [includes append]. rewrite IH. apply orb_true_r.
Qed.

Lemma includes_join (sep : string) (l : list string) (k : string) :
  In k l -> includes (join sep l) k = true.
Proof.
  unfold join. induction l as [|x xs IH]; [intros []|].
  intros [->|Hin].
  - destruct xs as [|y ys]; [apply includes_self|].
    cbn [String.concat]. apply includes_app_l, includes_self.
  - destruct xs as [|y ys]; [destruct Hin|].
    cbn [String.concat]. apply includes_app_r, includes_app_r.
    now apply IH.
Qed.

Lemma strip_from_length (s : string) (in_tag : bool) :
  String.length (strip_from in_tag s) <= String.length s.
Proof.
  revert in_tag. induction s as [|c r IH]; intros in_tag; simpl; [lia|].
  destruct in_tag.
  - destruct (is_gt c); [specialize (IH false)|specialize (IH true)]; lia.
  - destruct (is_lt c).
    + destruct (has_gt r); [specialize (IH true); lia|simpl; lia].
    + specialize (IH false). simpl. lia.
Qed.

Lemma js_length_append (a b : string) :
  js_length (a ++ b) = js_length a + js_length b.
Proof.
  induction a as [|c a IH]; [reflexivity|].
  cbn [append js_length]. rewrite IH. lia.
Qed.

Lemma strip_from_js_length (s : string) (in_tag : bool) :
  js_length (strip_from in_tag s) <= js_length s.
Proof.
  revert in_tag. induction s as [|c r IH]; intros in_tag; [simpl; lia|].
  cbn [strip_from js_length]. destruct in_tag.
  - destruct (is_gt c); [specialize (IH false)|specialize (IH true)]; lia.
  - destruct (is_lt c).
    + destruct (has_gt r); [specialize (IH true); lia|cbn [js_length]; lia].
    + specialize (IH false). cbn [js_length]. lia.
Qed.

Lemma strip_tags_fixed (s : string) :
  has_tag s = false -> strip_tags s = s.
Proof.
  unfold strip_tags. induction s as [|c r IH]; [reflexivity|].
  simpl. intros H. apply orb_false_iff in H. destruct H as [H1 H2].
  destruct (is_lt c).
  - simpl in H1. rewrite H1. reflexivity.
  - now rewrite IH.
Qed.

(** The test [story && story.length > 50] is the length test alone. *)
Lemma guard_50 (s : string) :
  negb (String.eqb s "") && (50 <? js_length s) = (50 <? js_length s).
Proof.
  destruct s as [|c r]; [reflexivity|]. reflexivity.
Qed.

End StringFacts.

(** ** Story Resolver *)

Section StoryFacts.
Import Js Eff Story Stated.

Variable toLowerCase : string -> string.







(** On ASCII text the keywords are those the mapping of [A-Z] to [a-z]
    gives. *)
Lemma extract_keywords_ascii (u : string) :
  conforming toLowerCase -> ascii_only u = true ->
  extract_keywords toLowerCase u = extract_keywords ascii_lower u.
Proof.
  intros C A. unfold extract_keywords, extract_words. now rewrite (C u A).
Qed.

Lemma userText_of_some (t : string) : userText_of (Some t) = trim t.
Proof.
  unfold userText_of, truthy. destruct t as [|c r]; reflexivity.
Qed.

Lemma long_is_nonempty (u : string) :
  10 < js_length u ->
  negb (String.eqb u "") && (10 <? js_length u) = true.
Proof.
  intros H. destruct u as [|c r]; [simpl in H; lia|].
  apply andb_true_iff. split; [reflexivity|]. now apply Nat.ltb_lt.
Qed.

Lemma short_guard (u : string) :
  js_length u <= 10 ->
  negb (String.eqb u "") && (10 <? js_length u) = false.
Proof.
  intros H. apply andb_false_iff. right. apply Nat.ltb_ge. exact H.
Qed.

(** The guard [userText && userText.length > 10] is the length test
    alone. *)
Lemma guard_is_length (u : string) :
  negb (String.eqb u "") && (10 <? js_length u) = (10 <? js_length u).
Proof.
  destruct u as [|c r]; reflexivity.
Qed.

(** The keywords do not depend on the corpus or on the random source. *)
Lemma resolve_keywords_any (body_text : option string) (resp : CorpusResp)
    (r : Rand) :
  fst (resolve toLowerCase (userText_of body_text) resp r)
  = resolve_keywords toLowerCase body_text.
Proof.
  unfold resolve_keywords, resolve.
  destruct (negb (String.eqb (userText_of body_text) "") &&
            (10 <? js_length (userText_of body_text))); [|reflexivity].
  destruct (0 <? List.length
                   (extract_keywords toLowerCase (userText_of body_text)));
    [|reflexivity].
  destruct (query_corpus toLowerCase resp _ r) as [s b].
  destruct (query_corpus toLowerCase FetchThrows _ _) as [s' b'].
  destruct (negb b || String.eqb s ""), (negb b' || String.eqb s' "");
    reflexivity.
Qed.


(** A non-empty keyword list can only come from the extraction branch. *)
Lemma keywords_need_long_text (body_text : option string) :
  resolve_keywords toLowerCase body_text <> [] ->
  10 < js_length (userText_of body_text) /\
  resolve_keywords toLowerCase body_text
  = extract_keywords toLowerCase (userText_of body_text) /\
  extract_keywords toLowerCase (userText_of body_text) <> [].
Proof.
  unfold resolve_keywords, resolve. rewrite guard_is_length.
  destruct (10 <? js_length (userText_of body_text)) eqn:G;
    [|intros H; now elim H].
  apply Nat.ltb_lt in G.
  destruct (extract_keywords toLowerCase (userText_of body_text))
    as [|k ks] eqn:E.
  - intros H. now elim H.
  - intros _. split; [exact G|split; [reflexivity|discriminate]].
Qed.

Lemma template_nonempty (keywords : list string) : template keywords <> "".
Proof. unfold template, skeleton_0. simpl. discriminate. Qed.

(** The template names every keyword it is built from. *)
Lemma template_includes (keywords : list string) (k : string) :
  In k keywords -> includes (template keywords) k = true.
Proof.
  intros Hin. unfold template.
  apply includes_app_r, includes_app_l. now apply includes_join.
Qed.

Lemma fallback_nonempty : Forall (fun s => s <> "") fallbackStories.
Proof.
  unfold fallbackStories, fallback_story_0, fallback_story_1, fallback_story_2.
  repeat constructor; discriminate.
Qed.

Lemma nth_error_in_bounds {A} (l : list A) (n : nat) :
  n < List.length l -> exists x, nth_error l n = Some x /\ In x l.
Proof.
  intros H. destruct (nth_error l n) as [x|] eqn:E.
  - exists x. split; [reflexivity|]. eapply nth_error_In. exact E.
  - apply nth_error_None in E. lia.
Qed.

(** The value [extract] returns is the text of a candidate entry as soon
    as the corpus is not empty. *)
Lemma extract_from_candidates (data : list Entry) (keywords : list string)
    (r : Rand) :
  in_unit_interval r -> data <> [] ->
  exists e, In e (candidates toLowerCase data keywords) /\
            extract toLowerCase data keywords r = entry_text e.
Proof.
  intros Hr Hdata. unfold extract, candidates.
  destruct (filter (matches toLowerCase keywords) data) as [|m ms] eqn:F.
  - simpl.
    destruct (nth_error_in_bounds data (random_index r (List.length data)))
      as [e [He Hin]].
    { apply random_index_lt; [exact Hr|].
      destruct data; [now elim Hdata|simpl; lia]. }
    exists e. rewrite He. now split.
  - change (0 <? List.length (m :: ms)) with true. cbv iota.
    destruct (nth_error_in_bounds (m :: ms)
                (random_index r (List.length (m :: ms)))) as [e [He Hin]].
    { apply random_index_lt; [exact Hr|simpl; lia]. }
    exists e. rewrite He. now split.
Qed.

(** The candidates are the entries with a keyword in their lowercased
    text, or every entry when no entry has one. *)
Lemma candidates_spec (data : list Entry) (keywords : list string)
    (e : Entry) :
  In e (candidates toLowerCase data keywords) <->
  In e data /\
  ((exists k, In k keywords /\
              includes (toLowerCase (entry_text e)) k = true) \/
   (forall e', In e' data -> matches toLowerCase keywords e' = false)).
Proof.
  unfold candidates.
  destruct (filter (matches toLowerCase keywords) data) as [|m ms] eqn:F.
  - assert (N : forall e', In e' data ->
                           matches toLowerCase keywords e' = false).
    { intros e' He'.
      destruct (matches toLowerCase keywords e') eqn:M; [|reflexivity].
      assert (In e' (filter (matches toLowerCase keywords) data))
        by (apply filter_In; now split).
      rewrite F in H. destruct H. }
    split; [intros H; split; [exact H|right; exact N]|tauto].
  - rewrite <- F. rewrite filter_In. split.
    + intros [Hin M]. split; [exact Hin|left].
      unfold matches in M. apply existsb_exists in M. exact M.
    + intros [Hin [[k [Hk Hinc]]|N]].
      * split; [exact Hin|]. unfold matches. apply existsb_exists.
        exists k. now split.
      * exfalso.
        assert (In m (filter (matches toLowerCase keywords) data))
          by (rewrite F; now left).
        apply filter_In in H. destruct H as [Hm M].
        rewrite (N m Hm) in M. discriminate.
Qed.

(** The resolver on a text longer than 10 characters that has a
    keyword: the story is the selected text, stripped and trimmed, when
    that text is longer than 50 characters and something is left of it,
    and the template in every other case. *)
Lemma resolve_with_keywords (u : string) (resp : CorpusResp) (r : Rand) :
  10 < js_length u -> extract_keywords toLowerCase u <> [] ->
  let keywords := extract_keywords toLowerCase u in
  let chosen := selected toLowerCase resp keywords r in
  resolve toLowerCase u resp r
  = (keywords,
     Some (if (50 <? js_length chosen) &&
              negb (String.eqb (trim (strip_tags chosen)) "")
           then trim (strip_tags chosen)
           else template keywords)).
Proof.
  intros L K. cbv zeta. unfold resolve.
  rewrite (long_is_nonempty u L).
  destruct (extract_keywords toLowerCase u) as [|k ks]; [now elim K|].
  change (0 <? List.length (k :: ks)) with true. cbv iota.
  unfold selected. destruct resp as [| |data]; try reflexivity.
  unfold query_corpus. rewrite guard_50.
  destruct (50 <? js_length (extract toLowerCase data (k :: ks) r));
    [|reflexivity].
  cbn [andb negb orb].
  destruct (String.eqb (trim (strip_tags
              (extract toLowerCase data (k :: ks) r))) ""); reflexivity.
Qed.

(** Whenever the trimmed text is longer than 10 characters and no token
    of it is a keyword, [story] keeps its initial value, the empty
    string. *)
Lemma long_text_without_keywords (t : string) (resp : CorpusResp)
    (r : Rand) :
  10 < js_length (trim t) ->
  extract_keywords toLowerCase (trim t) = [] ->
  resolve_story toLowerCase (Some t) resp r = Some "".
Proof.
  intros H K. unfold resolve_story, resolve.
  rewrite userText_of_some, (long_is_nonempty _ H), K. reflexivity.
Qed.

Lemma story_can_be_empty (resp : CorpusResp) (r : Rand) :
  conforming toLowerCase ->
  ~ story_never_empty toLowerCase (Some "to be or not to be") resp r.
Proof.
  intros C [s [E N]].
  rewrite long_text_without_keywords in E.
  - injection E as <-. now apply N.
  - vm_compute. lia.
  - change (trim "to be or not to be") with "to be or not to be".
    now rewrite (extract_keywords_ascii "to be or not to be" C eq_refl).
Qed.

End StoryFacts.
Section StoryClaims.
Import Js Eff Story Stated Sample.

(** C1.  The story is not always non-empty: a transcript longer than 10
    characters made of stop words and short words only, here
    ["tell me about the"], yields no keyword, the branch that fills
    [story] is skipped, and the empty string is what the handler sends to
    the speech-synthesis provider, whatever the corpus would answer. *)
Theorem stop_word_transcript_yields_empty_story (env : Generate.Env) :
  conforming (Generate.toLowerCase env) ->
  resolve_keywords (Generate.toLowerCase env) (Some "tell me about the")
  = [] /\
  resolve_story (Generate.toLowerCase env) (Some "tell me about the")
    (Generate.corpus env) (Generate.random env) = Some "" /\
  In (CallMurf (Some ""))
     (snd (Generate.generate_handler env (Some "tell me about the") 0%Z)).
Proof.
  intros C.
  assert (K : extract_keywords (Generate.toLowerCase env) "tell me about the"
              = []).
  { now rewrite (extract_keywords_ascii _ "tell me about the" C eq_refl). }
  assert (R : forall resp r,
             resolve (Generate.toLowerCase env)
               (userText_of (Some "tell me about the")) resp r
             = ([], Some "")).
  { intros resp r.
    change (userText_of (Some "tell me about the")) with "tell me about the".
    unfold resolve. rewrite K. reflexivity. }
  split; [|split].
  - unfold resolve_keywords. now rewrite R.
  - unfold resolve_story. now rewrite R.
  - unfold Generate.generate_handler. rewrite R.
    unfold Generate.narrate, try_catch, bind, emit, ret.
    destruct (Generate.murf_resp env) as [e|st txt|j]; simpl.
    + now left.
    + now left.
    + destruct (truthy (Generate.audioFile j)); [now left|].
      destruct (truthy (Generate.audioContent j)); now left.
Qed.

Lemma stop_word_transcript_yields_empty_story_witness :
  resolve_keywords engine (Some "tell me about the") = [] /\
  resolve_story engine (Some "tell me about the") FetchThrows half
  = Some "" /\
  In (CallMurf (Some ""))
     (snd (Generate.generate_handler murf_without_audio
             (Some "tell me about the") 0%Z)).
Proof.
  apply (stop_word_transcript_yields_empty_story murf_without_audio).
  exact ascii_lower_conforming.
Defined.




(** C8.  A transcript of at most 10 characters, or none, skips keyword
    extraction and gets one of the static fallback stories: there are at
    least 3 of them, none is empty, and the selection index is within
    bounds. *)
Theorem short_transcript_gets_fallback (toLowerCase : string -> string)
    (body_text : option string) (resp : CorpusResp) (r : Rand) :
  in_unit_interval r ->
  match body_text with
  | Some t => js_length t <= 10
  | None => True
  end ->
  resolve_keywords toLowerCase body_text = [] /\
  3 <= List.length fallbackStories /\
  Forall (fun s => s <> "") fallbackStories /\
  random_index r (List.length fallbackStories) < List.length fallbackStories /\
  exists s, resolve_story toLowerCase body_text resp r = Some s /\
            nth_error fallbackStories
              (random_index r (List.length fallbackStories)) = Some s /\
            In s fallbackStories /\ s <> "".
Proof.
  intros Hr Hlen.
  assert (G : negb (String.eqb (userText_of body_text) "") &&
              (10 <? js_length (userText_of body_text)) = false).
  { apply short_guard. destruct body_text as [t|]; [|simpl; lia].
    rewrite userText_of_some. pose proof (trim_length t). lia. }
  assert (B : random_index r (List.length fallbackStories)
              < List.length fallbackStories).
  { apply random_index_lt; [exact Hr|simpl; lia]. }
  split; [|split; [|split; [|split]]].
  - unfold resolve_keywords, resolve. rewrite G. reflexivity.
  - simpl. lia.
  - exact fallback_nonempty.
  - exact B.
  - destruct (nth_error_in_bounds _ _ B) as [s [E Hin]].
    exists s. split; [|split; [|split]].
    + unfold resolve_story, resolve. rewrite G. exact E.
    + exact E.
    + exact Hin.
    + pose proof fallback_nonempty as F. rewrite Forall_forall in F.
      now apply F.
Qed.

Lemma short_transcript_gets_fallback_witness :
  resolve_keywords engine (Some "Привет") = [] /\
  3 <= List.length fallbackStories /\
  Forall (fun s => s <> "") fallbackStories /\
  random_index two_thirds (List.length fallbackStories)
  < List.length fallbackStories /\
  exists s, resolve_story engine (Some "Привет") FetchThrows two_thirds
            = Some s /\
            nth_error fallbackStories
              (random_index two_thirds (List.length fallbackStories))
            = Some s /\
            In s fallbackStories /\ s <> "".
Proof.
  apply (short_transcript_gets_fallback engine (Some "Привет") FetchThrows
           two_thirds).
  - unfold in_unit_interval. cbn. lia.
  - vm_compute. lia.
Defined.

(** C9, as stated, fails: the template interpolates the keywords as they
    are, so a transcript that carries a tag gets a story that carries
    it. *)
Lemma tagged_keyword_reaches_story :
  ~ keyword_story_is_tag_free engine (Some "<b>dragons</b> and castles")
      FetchThrows half.
Proof.
  unfold keyword_story_is_tag_free. intros H.
  destruct H as [s [E [_ T]]].
  - vm_compute. discriminate.
  - vm_compute in E. injection E as <-. vm_compute in T. discriminate T.
Qed.

(** C9, amended.  With at least one keyword the story is never empty.
    When the corpus answers, the selected text is the text of an entry
    that contains a keyword in its lowercased text, or of any entry when
    none does; if that text is longer than 50 characters and something is
    left of it once the tags are stripped and it is trimmed, that rest is
    the story and no tag is left in it; in every other case, and when the
    request fails, the story is the template built from the keywords. *)
Theorem keyword_story_nonempty_corpus_text_tag_free
    (toLowerCase : string -> string) (body_text : option string)
    (resp : CorpusResp) (r : Rand) :
  in_unit_interval r ->
  resolve_keywords toLowerCase body_text <> [] ->
  let keywords := resolve_keywords toLowerCase body_text in
  exists s,
    resolve_story toLowerCase body_text resp r = Some s /\ s <> "" /\
    match resp with
    | RespOk data =>
        let chosen := extract toLowerCase data keywords r in
        (data <> [] ->
         exists e, chosen = entry_text e /\ In e data /\
           ((exists k, In k keywords /\
                       includes (toLowerCase (entry_text e)) k = true) \/
            (forall e', In e' data ->
                        matches toLowerCase keywords e' = false))) /\
        (if (50 <? js_length chosen) &&
            negb (String.eqb (trim (strip_tags chosen)) "")
         then s = trim (strip_tags chosen) /\ has_tag s = false
         else s = template keywords)
    | _ => s = template keywords
    end.
Proof.
  intros Hr Hk keywords.
  destruct (keywords_need_long_text toLowerCase body_text Hk) as [G [K P]].
  fold keywords in K. unfold resolve_story.
  rewrite (resolve_with_keywords toLowerCase _ resp r G P), <- K.
  cbn [snd]. destruct resp as [| |data]; cbn [selected].
  - exists (template keywords). cbn [js_length Nat.ltb Nat.leb andb].
    repeat split. apply template_nonempty.
  - exists (template keywords). cbn [js_length Nat.ltb Nat.leb andb].
    repeat split. apply template_nonempty.
  - assert (C : data <> [] ->
         exists e, extract toLowerCase data keywords r = entry_text e /\
           In e data /\
           ((exists k, In k keywords /\
                       includes (toLowerCase (entry_text e)) k = true) \/
            (forall e', In e' data ->
                        matches toLowerCase keywords e' = false))).
    { intros Hd.
      destruct (extract_from_candidates toLowerCase data keywords r Hr Hd)
        as [e [Hin E]].
      exists e. split; [exact E|]. now apply candidates_spec. }
    cbv zeta. set (chosen := extract toLowerCase data keywords r) in *.
    destruct ((50 <? js_length chosen) &&
              negb (String.eqb (trim (strip_tags chosen)) "")) eqn:T.
    + exists (trim (strip_tags chosen)).
      apply andb_true_iff in T. destruct T as [_ T].
      apply negb_true_iff, String.eqb_neq in T.
      split; [reflexivity|split; [exact T|split; [exact C|split]]].
      * reflexivity.
      * apply trim_no_tag, strip_tags_no_tag.
    + exists (template keywords).
      split; [reflexivity|split; [apply template_nonempty|split]].
      * exact C.
      * reflexivity.
Qed.

Lemma keyword_story_nonempty_corpus_text_tag_free_witness :
  exists s,
    resolve_story engine (Some dragons) (RespOk Corpus.marked_up) half
    = Some s /\ s <> "" /\
    (Corpus.marked_up <> [] ->
     exists e,
       extract engine Corpus.marked_up ["dragons"; "castles"] half
       = entry_text e /\ In e Corpus.marked_up /\
       ((exists k, In k ["dragons"; "castles"] /\
                   includes (engine (entry_text e)) k = true) \/
        (forall e', In e' Corpus.marked_up ->
                    matches engine ["dragons"; "castles"] e' = false))) /\
    s = "Three DRAGONS kept watch over the sleeping village." /\
    has_tag s = false.
Proof.
  apply (keyword_story_nonempty_corpus_text_tag_free
           engine (Some dragons) (RespOk Corpus.marked_up) half).
  - unfold in_unit_interval. cbn. lia.
  - vm_compute. discriminate.
Defined.

(** C10.  When the corpus answers with an empty list, the read at index
    0 finds nothing, the selection is the empty string, no success is
    recorded, and the story is the template built from the keywords,
    which is not empty and names each of them. *)
Theorem empty_corpus_falls_to_template (toLowerCase : string -> string)
    (body_text : option string) (r : Rand) :
  resolve_keywords toLowerCase body_text <> [] ->
  let keywords := resolve_keywords toLowerCase body_text in
  nth_error (@nil Entry) (random_index r 0) = None /\
  extract toLowerCase [] keywords r = "" /\
  query_corpus toLowerCase (RespOk []) keywords r = ("", false) /\
  resolve_story toLowerCase body_text (RespOk []) r
  = Some (template keywords) /\
  template keywords <> "" /\
  (forall k, In k keywords -> includes (template keywords) k = true).
Proof.
  intros Hk keywords.
  destruct (keywords_need_long_text toLowerCase body_text Hk) as [G [K P]].
  fold keywords in K.
  assert (E : extract toLowerCase [] keywords r = "").
  { unfold extract. simpl. rewrite random_index_empty. reflexivity. }
  split; [|split; [exact E|split; [|split; [|split]]]].
  - rewrite random_index_empty. reflexivity.
  - unfold query_corpus. rewrite E. reflexivity.
  - unfold resolve_story.
    rewrite (resolve_with_keywords toLowerCase _ (RespOk []) r G P), <- K.
    cbn [snd selected]. rewrite E. reflexivity.
  - apply template_nonempty.
  - apply template_includes.
Qed.

Lemma empty_corpus_falls_to_template_witness :
  nth_error (@nil Entry) (random_index half 0) = None /\
  extract engine [] ["dragons"; "castles"] half = "" /\
  query_corpus engine (RespOk []) ["dragons"; "castles"] half = ("", false) /\
  resolve_story engine (Some dragons) (RespOk []) half
  = Some "Once upon a time, in a land far, far away, there was a wonderful story about dragons, castles. The tale began on a bright sunny morning when everything seemed peaceful and calm. Suddenly, dragons appeared and changed everything! The journey was filled with excitement, mystery, and wonder at every turn. Along the way, there were many challenges to overcome and lessons to learn. Friends were made, obstacles were conquered, and hearts were filled with courage. As the days passed, the adventure grew more thrilling and more magical. Every moment brought new surprises and discoveries that amazed everyone. The story of dragons taught us about bravery, kindness, and the power of believing in ourselves. In the end, everything worked out beautifully, and joy filled the hearts of all who heard this magnificent tale. And so, the legend of dragons and castles lived on forever, inspiring generations to come. They all lived happily ever after, with memories that would last a lifetime!" /\
  template ["dragons"; "castles"] <> "" /\
  (forall k, In k ["dragons"; "castles"] ->
             includes (template ["dragons"; "castles"]) k = true).
Proof.
  apply (empty_corpus_falls_to_template engine (Some dragons) half).
  vm_compute. discriminate.
Defined.

End StoryClaims.
(** ** Upload Orchestrator *)

Section UploadFacts.
Import Js Eff Upload Stated Sample.

Variable env : Env.

(** One round of the loop, spelled out. *)
Lemma poll_loop_step (fuel : nat) (tid : string) (i : nat) (t : Z) :
  poll_loop env (S fuel) tid i t =
  let t1 := (t + sleep_ms env i)%Z in
  let t2 := (t1 + call_ms env i)%Z in
  let head := [Sleep 1000; CallPoll tid t1] in
  match poll_resp env i with
  | Threw e => (Exc e, t2, head)
  | NotOk st txt =>
      (Exc (JsError ("AssemblyAI poll failed: " ++ show st ++ " " ++ txt)),
       t2, head)
  | OkJson j =>
      if String.eqb (status j) "completed" then
        (Val (match or_else (text j) (Some "") with
              | Some s => s
              | None => ""
              end), t2, head)
      else if String.eqb (status j) "error" then
        (Exc (JsError ("AssemblyAI transcription error: " ++
                       match or_else (error j) (Some (stringify env j)) with
                       | Some s => s
                       | None => ""
                       end)), t2, head)
      else if (timeoutMs <? t2)%Z then
        (Exc (JsError "AssemblyAI transcription timed out."), t2,
         [Sleep 1000; CallPoll tid t1; BudgetCheck t2])
      else
        let '(o, t3, tr) := poll_loop env fuel tid (S i) t2 in
        (o, t3, Sleep 1000 :: CallPoll tid t1 :: BudgetCheck t2 :: tr)
  end.
Proof.
  cbn [poll_loop]. unfold bind, sleep, poll, read_budget, bind, emit, pass,
    elapsed, ret, throw. cbn zeta.
  destruct (poll_resp env i) as [e|st txt|j]; try reflexivity.
  destruct (String.eqb (status j) "completed"); [reflexivity|].
  destruct (String.eqb (status j) "error"); [reflexivity|].
  destruct (timeoutMs <? _)%Z; [reflexivity|].
  destruct (poll_loop env fuel tid (S i) _) as [[o t3] tr].
  destruct o; reflexivity.
Qed.

Lemma or_else_default (v : option string) (d : string) :
  match or_else v (Some d) with
  | Some s => s
  | None => ""
  end = if truthy v then match v with Some s => s | None => "" end else d.
Proof. unfold or_else. destruct (truthy v); reflexivity. Qed.

Lemma text_or_empty (v : option string) :
  match or_else v (Some "") with
  | Some s => s
  | None => ""
  end = match v with Some s => s | None => "" end.
Proof.
  rewrite or_else_default. destruct v as [[|c r]|]; reflexivity.
Qed.

(** What the [catch] block does: the deletion is attempted when the
    request carries a file with a path, whatever it throws is dropped,
    and the answer is the 500 built from the error caught. *)
Lemma upload_catch_run (req_file : option File) (err : exn) (t : Z) :
  upload_catch env req_file err t =
  (Val (json_response 500
          [("error", "upload_failed"); ("detail", String_of err)]),
   t,
   match req_file with
   | Some file =>
       if truthy (Some (path file)) then [UnlinkSync (path file)] else []
   | None => []
   end).
Proof.
  unfold upload_catch, try_catch, bind, unlinkSync, emit, ret, throw.
  destruct req_file as [file|]; [|reflexivity].
  destruct (truthy (Some (path file))); [|reflexivity].
  destruct (unlinkSync_error env); reflexivity.
Qed.

End UploadFacts.

(** The [try] block reads nothing of what the deletion of the file does:
    the callback given to [fs.unlink] drops its error. *)
Lemma upload_body_ignores_unlink (env : Upload.Env) (a s : option Eff.exn)
    (fuel : nat) (req_file : option Upload.File) (t : Z) :
  Upload.upload_body (Upload.with_unlink_errors env a s) fuel req_file t =
  Upload.upload_body env fuel req_file t.
Proof. reflexivity. Qed.

Section UploadRuns.
Import Js Eff Upload Stated Sample.

Variable env : Env.
Hypothesis timing : timing_ok env.

(** From any round that starts no earlier than its timers allow, the
    loop ends: at some round [n <= 60], on the first answer that is not
    pending or on the first budget reading above 60 s. *)
Lemma poll_loop_run (tid : string) (fuel : nat) :
  forall (i : nat) (t : Z),
    (1000 * Z.of_nat i <= t)%Z -> i <= 60 -> 1 <= fuel -> 61 <= fuel + i ->
    exists n o t' tr,
      poll_loop env fuel tid i t = (o, t', tr) /\
      (i <= n /\ n <= 60) /\
      (forall j, i <= j /\ j < n ->
                 still_pending (poll_resp env j) = true) /\
      loop_ending env (poll_resp env n) o t' /\
      loop_trace tr /\
      List.length (poll_times tr) = S n - i.
Proof.
  induction fuel as [|fuel IH]; intros i t Ht Hi Hf Hfi; [lia|].
  rewrite poll_loop_step. cbv zeta.
  destruct (timing i) as [Hs Hc].
  set (t1 := (t + sleep_ms env i)%Z).
  set (t2 := (t1 + call_ms env i)%Z).
  assert (Ht2 : (1000 * Z.of_nat (S i) <= t2)%Z) by (unfold t2, t1; lia).
  assert (Stop : forall o tr,
             loop_ending env (poll_resp env i) o t2 ->
             loop_trace tr -> List.length (poll_times tr) = 1 ->
             exists n o' t' tr',
               (o, t2, tr) = (o', t', tr') /\
               (i <= n /\ n <= 60) /\
               (forall j, i <= j /\ j < n ->
                          still_pending (poll_resp env j) = true) /\
               loop_ending env (poll_resp env n) o' t' /\
               loop_trace tr' /\ List.length (poll_times tr') = S n - i).
  { intros o tr E T L. exists i, o, t2, tr.
    repeat split; try assumption; try lia. }
  destruct (poll_resp env i) as [e|st txt|j] eqn:R.
  - apply Stop; [reflexivity|constructor|reflexivity].
  - apply Stop; [reflexivity|constructor|reflexivity].
  - destruct (String.eqb (status j) "completed") eqn:Sc.
    { apply Stop; [|constructor|reflexivity].
      simpl. rewrite Sc. now rewrite text_or_empty. }
    destruct (String.eqb (status j) "error") eqn:Se.
    { apply Stop; [|constructor|reflexivity].
      simpl. rewrite Sc, Se. eexists. split; [reflexivity|].
      apply or_else_default. }
    destruct (timeoutMs <? t2)%Z eqn:B.
    { apply Z.ltb_lt in B. apply Stop; [|now constructor|reflexivity].
      simpl. rewrite Sc, Se. now split. }
    apply Z.ltb_ge in B. unfold timeoutMs in B.
    destruct (IH (S i) t2) as [n [o [t' [tr [E [Hn [P [En [T L]]]]]]]]];
      try lia.
    exists n, o, t', (Sleep 1000 :: CallPoll tid t1 :: BudgetCheck t2 :: tr).
    rewrite E. repeat split; try lia; try assumption.
    + intros k Hk. destruct (Nat.eq_dec k i) as [->|Hne].
      * rewrite R. simpl. now rewrite Sc, Se.
      * apply P. lia.
    + constructor; [unfold timeoutMs; lia|exact T].
    + unfold poll_times in L |- *. cbn [flat_map app List.length].
      rewrite L. lia.
Qed.


Lemma loop_ending_finished (resp : fetched PollJson) (o : outcome string)
    (t : Z) :
  loop_ending env resp o t -> (exists v, o = Val v) \/ (exists e, o = Exc e).
Proof.
  unfold loop_ending. destruct resp as [e|st txt|j].
  - intros ->. right. now eexists.
  - intros ->. right. now eexists.
  - destruct (String.eqb (status j) "completed").
    + intros ->. left. now eexists.
    + destruct (String.eqb (status j) "error").
      * intros [msg [-> _]]. right. now eexists.
      * intros [-> _]. right. now eexists.
Qed.

(** The [try] block on a request that carries a file: it first calls the
    ingestion endpoint, and it either returns the 200 answer, after asking
    for the deletion of the file, or throws. *)
Lemma upload_body_run (fuel : nat) (file : File) :
  61 <= fuel ->
  exists o t tr,
    upload_body env fuel (Some file) 0%Z
      = (o, t, CallUpload (path file) :: tr) /\
    ((exists transcriptText,
         o = Val (json_response 200 [("transcript", transcriptText)]) /\
         In (Unlink (path file)) tr) \/
     (exists e, o = Exc e)).
Proof.
  intros Hfuel.
  unfold upload_body, upload_step, create_step, unlink, bind, emit, ret,
    throw.
  destruct (upload_resp env) as [e|st txt|uj].
  - do 3 eexists. split; [reflexivity|]. right. now eexists.
  - do 3 eexists. split; [reflexivity|]. right. now eexists.
  - destruct (truthy (upload_url uj)).
    2:{ do 3 eexists. split; [reflexivity|]. right. now eexists. }
    destruct (create_resp env) as [e|st txt|cj].
    + do 3 eexists. split; [reflexivity|]. right. now eexists.
    + do 3 eexists. split; [reflexivity|]. right. now eexists.
    + destruct (truthy (id cj)).
      2:{ do 3 eexists. split; [reflexivity|]. right. now eexists. }
      set (tid := match id cj with Some u => u | None => "" end).
      destruct (poll_loop_run tid fuel 0 0%Z)
        as [n [o [t' [tr [E [_ [_ [En _]]]]]]]]; try lia.
      rewrite E.
      destruct (loop_ending_finished _ _ _ En) as [[v ->]|[e ->]].
      * do 3 eexists. split; [reflexivity|]. left. eexists.
        split; [reflexivity|]. simpl. right. apply in_or_app. right.
        now left.
      * do 3 eexists. split; [reflexivity|]. right. now eexists.
Qed.

(** The handler on a request that carries a file always answers, with
    200 and the transcript or with 500, an error code and a detail; the
    deletion of the file has been attempted by then. *)
Lemma upload_handler_run (fuel : nat) (file : File) :
  61 <= fuel ->
  exists r t tr,
    upload_handler env fuel (Some file) 0%Z
      = (Val r, t, CallUpload (path file) :: tr) /\
    ((exists transcriptText,
         r = json_response 200 [("transcript", transcriptText)] /\
         In (Unlink (path file)) tr) \/
     (exists err,
         r = json_response 500
               [("error", "upload_failed"); ("detail", String_of err)] /\
         (path file <> "" -> In (UnlinkSync (path file)) tr))).
Proof.
  intros Hfuel.
  destruct (upload_body_run fuel file Hfuel)
    as [o [t [tr [E [[text [-> Hin]]|[e ->]]]]]];
    unfold upload_handler, try_catch; rewrite E.
  - do 3 eexists. split; [reflexivity|]. left. eexists. now split.
  - rewrite upload_catch_run.
    do 3 eexists. split; [reflexivity|]. right. exists e.
    split; [reflexivity|]. intros Hp. apply in_or_app. right.
    replace (truthy (Some (path file))) with true; [now left|].
    simpl. destruct (path file); [now elim Hp|reflexivity].
Qed.

End UploadRuns.

Lemma upload_handler_ignores_unlink (env : Upload.Env)
    (a s : option Eff.exn) (fuel : nat) (req_file : option Upload.File)
    (t : Z) :
  Upload.upload_handler (Upload.with_unlink_errors env a s) fuel req_file t =
  Upload.upload_handler env fuel req_file t.
Proof.
  unfold Upload.upload_handler, Eff.try_catch.
  rewrite upload_body_ignores_unlink.
  destruct (Upload.upload_body env fuel req_file t) as [[o t1] tr1].
  destruct o; try reflexivity.
  now rewrite !upload_catch_run.
Qed.

Section UploadClaims.
Import Js Eff Upload Stated Sample.

(** C2, as stated, fails: a clip of silence completes with no text, and
    the loop returns the empty string. *)
Lemma silent_clip_completes_with_empty_text :
  ~ poll_ends_in_three_ways silence.
Proof.
  intros H. specialize (H 61 "job-1" (le_n 61)). vm_compute in H.
  destruct H as [[s [E N]]|[[msg E]|E]].
  - injection E as <-. now apply N.
  - discriminate E.
  - discriminate E.
Qed.

(** C2, amended.  Every round of the poll loop waits on a 1-second timer
    and then asks for the status once.  The loop ends at some round, the
    61st at the latest, in exactly one of these ways: status [completed]
    returns the transcript text, the empty string when the provider gives
    none; status [error] throws the transcription error with the
    provider's message; a status answer that is not [ok], or a request
    that throws, throws the poll failure; and a budget reading above
    60 s, taken after a pending answer, throws the timeout. *)
Theorem poll_loop_ends_in_one_of_four_ways (env : Env) (tid : string)
    (fuel : nat) :
  timing_ok env -> 61 <= fuel ->
  exists n o t tr,
    poll_loop env fuel tid 0 0%Z = (o, t, tr) /\
    n <= 60 /\
    (forall j, j < n -> still_pending (poll_resp env j) = true) /\
    loop_ending env (poll_resp env n) o t /\
    loop_trace tr /\
    List.length (poll_times tr) = S n.
Proof.
  intros Ht Hf.
  destruct (poll_loop_run env Ht tid fuel 0 0%Z)
    as [n [o [t [tr [E [Hn [P [En [T L]]]]]]]]]; try lia.
  exists n, o, t, tr. repeat split; try assumption; try lia.
  intros j Hj. apply P. lia.
Qed.

Lemma poll_loop_ends_in_one_of_four_ways_witness :
  exists n o t tr,
    poll_loop silence 61 "job-1" 0 0%Z = (o, t, tr) /\
    n <= 60 /\
    (forall j, j < n -> still_pending (poll_resp silence j) = true) /\
    loop_ending silence (poll_resp silence n) o t /\
    loop_trace tr /\
    List.length (poll_times tr) = S n.
Proof.
  apply (poll_loop_ends_in_one_of_four_ways silence "job-1" 61).
  - intros i. simpl. lia.
  - lia.
Defined.

(** C3, as stated, fails: with every timer exactly on time and a job
    that stays pending, the 61st status request goes out at 61 s, after
    the budget has elapsed. *)
Lemma poll_issued_after_budget : ~ no_poll_after_budget nominal.
Proof.
  intros H. specialize (H 61 "job-1" (le_n 61)). vm_compute in H.
  discriminate H.
Qed.

(** C3, amended.  The poll loop reads the budget once per round, after
    the status request and only when the answer is pending, never before
    the request: a round is a timer wait, then a request, then at most one
    reading, and a further round starts only when that reading is within
    60 s.  So at most 61 requests are issued, and the last of them can go
    out after the budget has elapsed. *)
Theorem budget_is_read_once_after_each_poll (env : Env) (tid : string)
    (fuel : nat) :
  timing_ok env -> 61 <= fuel ->
  loop_trace (snd (poll_loop env fuel tid 0 0%Z)) /\
  1 <= List.length (poll_times (snd (poll_loop env fuel tid 0 0%Z))) <= 61.
Proof.
  intros Ht Hf.
  destruct (poll_loop_run env Ht tid fuel 0 0%Z)
    as [n [o [t [tr [E [Hn [_ [_ [T L]]]]]]]]]; try lia.
  rewrite E. simpl. split; [exact T|lia].
Qed.

Lemma budget_is_read_once_after_each_poll_witness :
  loop_trace (snd (poll_loop nominal 61 "job-1" 0 0%Z)) /\
  1 <= List.length (poll_times (snd (poll_loop nominal 61 "job-1" 0 0%Z)))
    <= 61.
Proof.
  apply (budget_is_read_once_after_each_poll nominal "job-1" 61).
  - intros i. simpl. lia.
  - lia.
Defined.

(** C4, as stated, fails: a request without a file is answered with
    status 400 and a body that has no detail. *)
Lemma missing_file_is_not_500 : ~ no_file_is_500 nominal None.
Proof.
  intros H. specialize (H 61). simpl in H.
  destruct H as [r [E [C _]]]. injection E as <-. discriminate C.
Qed.

(** C4, amended.  A request without a file part is answered at once with
    HTTP 400 and the body [{ error: 'no_file' }], without any call to a
    provider and without any other effect.  A request that carries a
    file, of whatever size, starts with the call to the ingestion
    endpoint, and is answered either with 200 and the transcript or with
    500 and a body made of the error code [upload_failed] and a detail
    string. *)
Theorem missing_file_is_400_other_failures_500 (env : Env) (fuel : nat) :
  upload_handler env fuel None 0%Z
    = (Val (json_response 400 [("error", "no_file")]), 0%Z, []) /\
  (forall file, timing_ok env -> 61 <= fuel ->
     exists r t tr,
       upload_handler env fuel (Some file) 0%Z
         = (Val r, t, CallUpload (path file) :: tr) /\
       ((exists transcriptText,
            r = json_response 200 [("transcript", transcriptText)]) \/
        (exists detail,
            r = json_response 500
                  [("error", "upload_failed"); ("detail", detail)]))).
Proof.
  split; [reflexivity|].
  intros file Ht Hf.
  destruct (upload_handler_run env Ht fuel file Hf)
    as [r [t [tr [E [[text [-> _]]|[err [-> _]]]]]]].
  - exists (json_response 200 [("transcript", text)]), t, tr.
    split; [exact E|]. left. now eexists.
  - eexists _, t, tr. split; [exact E|]. right. now eexists.
Qed.

Lemma missing_file_is_400_other_failures_500_witness :
  exists r t tr,
    upload_handler unauthorized 61 (Some (mkFile "uploads/empty" 0)) 0%Z
      = (Val r, t, CallUpload "uploads/empty" :: tr) /\
    ((exists transcriptText,
         r = json_response 200 [("transcript", transcriptText)]) \/
     (exists detail,
         r = json_response 500
               [("error", "upload_failed"); ("detail", detail)])).
Proof.
  apply (proj2 (missing_file_is_400_other_failures_500 unauthorized 61)
           (mkFile "uploads/empty" 0)).
  - intros i. simpl. lia.
  - lia.
Defined.

(** C5.  On every exit of the handler for a request whose file has a
    path, the deletion of that file has been attempted: asynchronously
    before the 200 answer, synchronously in the [catch] block before the
    500 answer.  Whether the deletion fails changes neither the answer
    nor anything else the handler does. *)
Theorem temp_file_deletion_attempted_and_swallowed (env : Env)
    (fuel : nat) (file : File) (a s : option exn) :
  timing_ok env -> 61 <= fuel -> path file <> "" ->
  exists r t tr,
    upload_handler env fuel (Some file) 0%Z = (Val r, t, tr) /\
    (code r = 200 /\ In (Unlink (path file)) tr \/
     code r = 500 /\ In (UnlinkSync (path file)) tr) /\
    upload_handler (with_unlink_errors env a s) fuel (Some file) 0%Z
      = (Val r, t, tr).
Proof.
  intros Ht Hf Hp.
  destruct (upload_handler_run env Ht fuel file Hf)
    as [r [t [tr [E [[text [-> Hin]]|[err [-> Hin]]]]]]];
    eexists _, t, _; (split; [exact E|]);
    (split; [|rewrite upload_handler_ignores_unlink; exact E]).
  - left. split; [reflexivity|now right].
  - right. split; [reflexivity|]. right. now apply Hin.
Qed.

Lemma temp_file_deletion_attempted_and_swallowed_witness :
  exists r t tr,
    upload_handler unauthorized 61 (Some clip) 0%Z = (Val r, t, tr) /\
    (code r = 200 /\ In (Unlink (path clip)) tr \/
     code r = 500 /\ In (UnlinkSync (path clip)) tr) /\
    upload_handler (with_unlink_errors unauthorized None None) 61
      (Some clip) 0%Z = (Val r, t, tr).
Proof.
  apply (temp_file_deletion_attempted_and_swallowed
           unauthorized 61 clip None None).
  - intros i. simpl. lia.
  - lia.
  - discriminate.
Defined.

End UploadClaims.

(** ** Narration Orchestrator *)

Section NarrationClaims.
Import Js Eff Story Generate Stated Sample.

(** The handler answers what the narration of the resolved story
    answers. *)
Lemma generate_handler_narrates (env : Env) (body_text : option string)
    (t : Z) :
  fst (fst (generate_handler env body_text t)) =
  fst (fst (narration_response env
              (resolve_story (toLowerCase env) body_text (corpus env)
                 (random env)) t)).
Proof.
  unfold generate_handler, narration_response, resolve_story, try_catch, bind.
  destruct (resolve (toLowerCase env) (userText_of body_text) (corpus env)
              (random env)) as [keywords story].
  cbn [snd].
  destruct (0 <? List.length keywords); cbn [emit ret];
    destruct (narrate env story t) as [[o t1] tr1];
    destruct o; reflexivity.
Qed.



End NarrationClaims.

(** * Further properties of the handlers *)

(** ** The upload handler: what it calls, when, and for how long *)

Section UploadTraces.
Import Js Eff Upload UploadTrace.

Variable env : Env.

(** The loop emits nothing but timer waits, status requests for the job
    it was given, and budget readings. *)
Lemma poll_loop_events (tid : string) (fuel : nat) :
  forall i t ev,
    In ev (snd (poll_loop env fuel tid i t)) ->
    ev = Sleep 1000 \/ (exists u, ev = CallPoll tid u) \/
    (exists c, ev = BudgetCheck c).
Proof.
  induction fuel as [|fuel IH]; intros i t ev; [intros []|].
  rewrite poll_loop_step. cbv zeta.
  assert (Head : forall u, In ev [Sleep 1000; CallPoll tid u] ->
            ev = Sleep 1000 \/ (exists u, ev = CallPoll tid u) \/
            (exists c, ev = BudgetCheck c)).
  { intros u [<-|[<-|[]]]; [now left|right; left; now eexists]. }
  destruct (poll_resp env i) as [e|st txt|j]; cbn [snd]; try apply Head.
  destruct (String.eqb (status j) "completed"); cbn [snd]; [apply Head|].
  destruct (String.eqb (status j) "error"); cbn [snd]; [apply Head|].
  destruct (timeoutMs <? _)%Z; cbn [snd].
  - intros [<-|[<-|[<-|[]]]];
      [now left|right; left; now eexists|right; right; now eexists].
  - specialize (IH (S i) (t + sleep_ms env i + call_ms env i)%Z ev).
    destruct (poll_loop env fuel tid (S i) _) as [[o t3] tr]. cbn [snd] in *.
    intros [<-|[<-|[<-|Hin]]];
      [now left|right; left; now eexists|right; right; now eexists|].
    now apply IH.
Qed.

Lemma spaced_from_earlier (t u : Z) (times : list Z) :
  (t <= u)%Z -> spaced_from u times -> spaced_from t times.
Proof.
  destruct times as [|v rest]; simpl; [easy|].
  intros H [H1 H2]. split; [lia|exact H2].
Qed.

(** The clock when the loop ends is within the budget plus the length
    of one round, whenever it started within the budget. *)
Lemma poll_loop_clock (tid : string) (d : Z) (fuel : nat) :
  (0 <= d)%Z ->
  (forall i, (sleep_ms env i + call_ms env i <= d)%Z) ->
  forall i t, (t <= timeoutMs)%Z ->
    (snd (fst (poll_loop env fuel tid i t)) <= timeoutMs + d)%Z.
Proof.
  intros Hd Hround.
  induction fuel as [|fuel IH]; intros i t Ht;
    [unfold poll_loop, out_of_fuel; cbn [fst snd]; lia|].
  rewrite poll_loop_step. cbv zeta.
  pose proof (Hround i) as Hi.
  destruct (poll_resp env i) as [e|st txt|j]; cbn [fst snd]; try lia.
  destruct (String.eqb (status j) "completed"); cbn [fst snd]; [lia|].
  destruct (String.eqb (status j) "error"); cbn [fst snd]; [lia|].
  destruct (timeoutMs <? _)%Z eqn:B; cbn [fst snd]; [lia|].
  apply Z.ltb_ge in B.
  specialize (IH (S i) _ B).
  destruct (poll_loop env fuel tid (S i) _) as [[o t3] tr].
  cbn [fst snd] in *. exact IH.
Qed.

(** The whole handler on a request with a file, case by case. *)
Lemma upload_handler_shape (fuel : nat) (file : File) :
  let p := path file in
  let cleanup := if truthy (Some p) then [UnlinkSync p] else [] in
  let failure err :=
    Val (json_response 500
           [("error", "upload_failed"); ("detail", String_of err)]) in
  match upload_accepted env with
  | None =>
      exists err,
        upload_handler env fuel (Some file) 0%Z
          = (failure err, 0%Z, CallUpload p :: cleanup)
  | Some url =>
      match job_created env with
      | None =>
          exists err,
            upload_handler env fuel (Some file) 0%Z
              = (failure err, 0%Z, CallUpload p :: CallCreate url :: cleanup)
      | Some tid =>
          exists o t ltr,
            poll_loop env fuel tid 0 0%Z = (o, t, ltr) /\
            upload_handler env fuel (Some file) 0%Z =
              match o with
              | Val transcriptText =>
                  (Val (json_response 200 [("transcript", transcriptText)]),
                   t,
                   CallUpload p :: CallCreate url :: (ltr ++ [Unlink p])%list)
              | Exc err =>
                  (failure err, t,
                   CallUpload p :: CallCreate url :: (ltr ++ cleanup)%list)
              | OutOfFuel =>
                  (OutOfFuel, t, CallUpload p :: CallCreate url :: ltr)
              end
      end
  end.
Proof.
  cbv zeta. unfold upload_accepted, job_created, upload_handler, try_catch.
  unfold upload_body, upload_step, create_step, unlink, bind, emit, ret, throw.
  destruct (upload_resp env) as [e|st txt|uj].
  - eexists. rewrite upload_catch_run. reflexivity.
  - eexists. rewrite upload_catch_run. reflexivity.
  - destruct (truthy (upload_url uj)) eqn:Tu.
    2:{ eexists. rewrite upload_catch_run. reflexivity. }
    destruct (upload_url uj) as [url|] eqn:Uu; [|discriminate Tu].
    destruct (create_resp env) as [e|st txt|cj].
    + eexists. rewrite upload_catch_run. reflexivity.
    + eexists. rewrite upload_catch_run. reflexivity.
    + destruct (truthy (id cj)) eqn:Tc.
      2:{ eexists. rewrite upload_catch_run. reflexivity. }
      destruct (id cj) as [tid|] eqn:Ui; [|discriminate Tc].
      destruct (poll_loop env fuel tid 0 0%Z) as [[o t] ltr] eqn:E.
      exists o, t, ltr. split; [reflexivity|].
      destruct o as [text|err|].
      * cbn. reflexivity.
      * rewrite upload_catch_run. cbn.
        first [reflexivity | now rewrite <- app_assoc].
      * reflexivity.
Qed.

End UploadTraces.

Lemma poll_loop_finishes (env : Upload.Env) (tid : string) (fuel : nat) :
  Upload.timing_ok env -> 61 <= fuel ->
  exists o t tr,
    Upload.poll_loop env fuel tid 0 0%Z = (o, t, tr) /\
    ((exists v, o = Eff.Val v) \/ (exists e, o = Eff.Exc e)).
Proof.
  intros Ht Hf.
  destruct (poll_loop_run env Ht tid fuel 0 0%Z)
    as [n [o [t [tr [E [_ [_ [En _]]]]]]]]; try lia.
  exists o, t, tr. split; [exact E|].
  exact (loop_ending_finished env _ _ _ En).
Qed.

Lemma poll_loop_spaced (env : Upload.Env) (tid : string) (fuel : nat) :
  Upload.timing_ok env ->
  forall i t,
    UploadTrace.spaced_from t
      (Upload.poll_times (snd (Upload.poll_loop env fuel tid i t))).
Proof.
  intros Ht.
  induction fuel as [|fuel IH]; intros i t; [exact I|].
  rewrite poll_loop_step. cbv zeta.
  destruct (Ht i) as [Hs Hc].
  assert (Head : UploadTrace.spaced_from t
                   [(t + Upload.sleep_ms env i)%Z])
    by (simpl; split; [lia|exact I]).
  destruct (Upload.poll_resp env i) as [e|st txt|j]; cbn [snd];
    try exact Head.
  destruct (String.eqb (Upload.status j) "completed"); cbn [snd];
    [exact Head|].
  destruct (String.eqb (Upload.status j) "error"); cbn [snd]; [exact Head|].
  destruct (Upload.timeoutMs <? _)%Z; cbn [snd]; [exact Head|].
  specialize (IH (S i) (t + Upload.sleep_ms env i + Upload.call_ms env i)%Z).
  destruct (Upload.poll_loop env fuel tid (S i) _) as [[o t3] tr].
  cbn [snd] in *. unfold Upload.poll_times in *.
  cbn [flat_map app]. split; [lia|].
  eapply spaced_from_earlier; [|exact IH]. lia.
Qed.

Lemma poll_times_app (a b : list Eff.event) :
  Upload.poll_times (a ++ b) = (Upload.poll_times a ++ Upload.poll_times b)%list.
Proof. apply flat_map_app. Qed.

Lemma count_none (p : Eff.event -> bool) (tr : list Eff.event) :
  (forall ev, In ev tr -> p ev = false) -> UploadTrace.count p tr = 0.
Proof.
  unfold UploadTrace.count. induction tr as [|ev rest IH]; intros H.
  - reflexivity.
  - simpl. rewrite (H ev) by now left. apply IH.
    intros ev' Hin. apply H. now right.
Qed.

Section UploadExtras.
Import Js Eff Upload UploadTrace.

(** X1.  When the ingestion endpoint does not give a usable reference
    the handler calls nothing else: no job is created and no status is
    polled; it deletes the file and answers 500.  When the reference is
    given but the job creation gives no identifier, it stops there in the
    same way. *)
Theorem handler_stops_at_first_rejection (env : Env) (fuel : nat)
    (file : File) :
  path file <> "" ->
  (upload_accepted env = None ->
   exists err,
     upload_handler env fuel (Some file) 0%Z
       = (Val (json_response 500
                 [("error", "upload_failed"); ("detail", String_of err)]),
          0%Z,
          [CallUpload (path file); UnlinkSync (path file)])) /\
  (forall url,
     upload_accepted env = Some url -> job_created env = None ->
     exists err,
       upload_handler env fuel (Some file) 0%Z
         = (Val (json_response 500
                   [("error", "upload_failed"); ("detail", String_of err)]),
            0%Z,
            [CallUpload (path file); CallCreate url;
             UnlinkSync (path file)])).
Proof.
  intros Hp.
  assert (T : truthy (Some (path file)) = true)
    by (simpl; destruct (path file); [now elim Hp|reflexivity]).
  pose proof (upload_handler_shape env fuel file) as S. cbv zeta in S.
  rewrite T in S. split.
  - intros U. rewrite U in S. exact S.
  - intros url U J. rewrite U, J in S. exact S.
Qed.

Lemma handler_stops_at_first_rejection_witness :
  exists err,
    upload_handler Sample.unauthorized 61 (Some Sample.clip) 0%Z
      = (Val (json_response 500
                [("error", "upload_failed"); ("detail", String_of err)]),
         0%Z,
         [CallUpload (path Sample.clip); UnlinkSync (path Sample.clip)]).
Proof.
  apply (proj1 (handler_stops_at_first_rejection
                  Sample.unauthorized 61 Sample.clip ltac:(discriminate))).
  reflexivity.
Defined.

(** X2.  What the handler sends on is what it was given: a job is
    created only for the reference the ingestion endpoint returned, and
    every status request asks for the job the creation returned. *)
Theorem handler_passes_on_what_it_got (env : Env) (fuel : nat)
    (file : File) :
  let tr := snd (upload_handler env fuel (Some file) 0%Z) in
  (forall url, In (CallCreate url) tr -> upload_accepted env = Some url) /\
  (forall tid t, In (CallPoll tid t) tr ->
     job_created env = Some tid /\ In (CallCreate
       (match upload_accepted env with Some u => u | None => "" end)) tr).
Proof.
  cbv zeta.
  pose proof (upload_handler_shape env fuel file) as S. cbv zeta in S.
  assert (C : forall ev,
             In ev (if truthy (Some (path file))
                    then [UnlinkSync (path file)] else []) ->
             ev = UnlinkSync (path file)).
  { intros ev. destruct (truthy (Some (path file)));
      [intros [<-|[]]; reflexivity|intros []]. }
  destruct (upload_accepted env) as [url|].
  - destruct (job_created env) as [tid|].
    + destruct S as [o [t [ltr [E S]]]].
      assert (L : forall ev, In ev ltr ->
                ev = Sleep 1000 \/ (exists u, ev = CallPoll tid u) \/
                (exists c, ev = BudgetCheck c)).
      { intros ev Hin. apply (poll_loop_events env tid fuel 0 0%Z).
        rewrite E. exact Hin. }
      assert (Tr : exists tail,
                 snd (upload_handler env fuel (Some file) 0%Z)
                   = CallUpload (path file) :: CallCreate url
                       :: (ltr ++ tail)%list /\
                 forall ev, In ev tail ->
                   ev = Unlink (path file) \/ ev = UnlinkSync (path file)).
      { rewrite S. destruct o as [v|e|].
        - eexists. split; [reflexivity|]. intros ev [<-|[]]. now left.
        - eexists. split; [reflexivity|]. intros ev Hin. right. now apply C.
        - exists []. split; [cbn [snd]; now rewrite app_nil_r|intros ev []]. }
      destruct Tr as [tail [-> Tail]]. split.
      * intros u [H|[H|H]]; [discriminate H|now injection H as <-|].
        apply in_app_or in H. destruct H as [H|H].
        -- destruct (L _ H) as [H'|[[? H']|[? H']]]; discriminate H'.
        -- destruct (Tail _ H) as [H'|H']; discriminate H'.
      * intros x t' [H|[H|H]]; [discriminate H|discriminate H|].
        split; [|right; now left].
        apply in_app_or in H. destruct H as [H|H].
        -- destruct (L _ H) as [H'|[[? H']|[? H']]];
             [discriminate H'|now injection H' as <-|discriminate H'].
        -- destruct (Tail _ H) as [H'|H']; discriminate H'.
    + destruct S as [err ->]. cbn [snd]. split.
      * intros u [H|[H|H]]; [discriminate H|now injection H as <-|].
        apply C in H. discriminate H.
      * intros x t' [H|[H|H]]; [discriminate H|discriminate H|].
        apply C in H. discriminate H.
  - destruct S as [err ->]. cbn [snd]. split.
    + intros u [H|H]; [discriminate H|]. apply C in H. discriminate H.
    + intros x t' [H|H]; [discriminate H|]. apply C in H. discriminate H.
Qed.

Lemma handler_passes_on_what_it_got_witness :
  job_created Sample.nominal = Some "job-1".
Proof.
  apply (proj2 (handler_passes_on_what_it_got Sample.nominal 3 Sample.clip)
           "job-1" 1000%Z).
  vm_compute. right. right. right. left. reflexivity.
Defined.

(** X3.  With timers that never fire early, the status requests of one
    upload are at least a second apart, and the first one goes out at
    least a second after the job was created. *)
Theorem status_requests_are_a_second_apart (env : Env) (fuel : nat)
    (file : File) :
  timing_ok env ->
  spaced_from 0 (poll_times (snd (upload_handler env fuel (Some file) 0%Z))).
Proof.
  intros Ht.
  pose proof (upload_handler_shape env fuel file) as S. cbv zeta in S.
  assert (C : poll_times (if truthy (Some (path file))
                          then [UnlinkSync (path file)] else []) = [])
    by (destruct (truthy (Some (path file))); reflexivity).
  destruct (upload_accepted env) as [url|].
  - destruct (job_created env) as [tid|].
    + destruct S as [o [t [ltr [E S]]]].
      pose proof (poll_loop_spaced env tid fuel Ht 0 0%Z) as Sp.
      rewrite E in Sp. cbn [snd] in Sp. rewrite S.
      destruct o as [v|e|]; cbn [snd];
        change (poll_times (CallUpload (path file) :: CallCreate url :: ?l))
          with (poll_times l);
        rewrite ?poll_times_app, ?C, ?app_nil_r; exact Sp.
    + destruct S as [err ->]. cbn [snd].
      change (poll_times (CallUpload (path file) :: CallCreate url :: ?l))
        with (poll_times l). rewrite C. exact I.
  - destruct S as [err ->]. cbn [snd].
    change (poll_times (CallUpload (path file) :: ?l)) with (poll_times l).
    rewrite C. exact I.
Qed.

Lemma status_requests_are_a_second_apart_witness :
  spaced_from 0
    (poll_times (snd (upload_handler Scenario.greeting 61
                        (Some Sample.clip) 0%Z))).
Proof.
  apply (status_requests_are_a_second_apart Scenario.greeting 61 Sample.clip).
  intros i. simpl. lia.
Defined.

(** X4.  With timers that never fire early, if no round (timer wait and
    status request together) lasts longer than [d] milliseconds, the
    handler answers no later than [d] after the 60-second budget. *)
Theorem handler_answers_within_budget_and_a_round (env : Env) (fuel : nat)
    (file : File) (d : Z) :
  timing_ok env -> 61 <= fuel ->
  (forall i, (sleep_ms env i + call_ms env i <= d)%Z) ->
  exists r t tr,
    upload_handler env fuel (Some file) 0%Z = (Val r, t, tr) /\
    (t <= timeoutMs + d)%Z.
Proof.
  intros Ht Hf Hd.
  assert (D : (0 <= d)%Z) by (destruct (Ht 0); specialize (Hd 0); lia).
  pose proof (upload_handler_shape env fuel file) as S. cbv zeta in S.
  destruct (upload_accepted env) as [url|].
  - destruct (job_created env) as [tid|].
    + destruct S as [o [t [ltr [E S]]]].
      assert (Hi : (t <= timeoutMs + d)%Z).
      { pose proof (poll_loop_clock env tid d fuel D Hd 0 0%Z) as Hi.
        rewrite E in Hi. cbn [fst snd] in Hi. apply Hi.
        unfold timeoutMs. lia. }
      destruct (poll_loop_finishes env tid fuel Ht Hf)
        as [o' [t' [tr' [E' Fin]]]].
      rewrite E in E'. injection E' as <- <- <-.
      destruct Fin as [[v ->]|[e ->]]; rewrite S;
        do 3 eexists; (split; [reflexivity|exact Hi]).
    + destruct S as [err ->]. do 3 eexists. split; [reflexivity|].
      unfold timeoutMs. lia.
  - destruct S as [err ->]. do 3 eexists. split; [reflexivity|].
    unfold timeoutMs. lia.
Qed.

Lemma handler_answers_within_budget_and_a_round_witness :
  exists r t tr,
    upload_handler Sample.nominal 61 (Some Sample.clip) 0%Z = (Val r, t, tr) /\
    (t <= timeoutMs + 1000)%Z.
Proof.
  apply (handler_answers_within_budget_and_a_round
           Sample.nominal 61 Sample.clip 1000%Z).
  - intros i. simpl. lia.
  - lia.
  - intros i. simpl. lia.
Defined.

(** X5.  With timers that never fire early, the handler deletes the
    file of a request exactly once, as the last thing it does: after
    every call to the provider, whether it answers 200 or 500. *)
Theorem file_is_deleted_once_and_last (env : Env) (fuel : nat)
    (file : File) :
  timing_ok env -> 61 <= fuel -> path file <> "" ->
  exists front deletion,
    snd (upload_handler env fuel (Some file) 0%Z)
      = (front ++ [deletion])%list /\
    (deletion = Unlink (path file) \/ deletion = UnlinkSync (path file)) /\
    count is_deletion front = 0.
Proof.
  intros Ht Hf Hp.
  assert (T : truthy (Some (path file)) = true)
    by (simpl; destruct (path file); [now elim Hp|reflexivity]).
  pose proof (upload_handler_shape env fuel file) as S. cbv zeta in S.
  rewrite T in S.
  destruct (upload_accepted env) as [url|].
  - destruct (job_created env) as [tid|].
    + destruct S as [o [t [ltr [E S]]]].
      assert (L : count is_deletion ltr = 0).
      { apply count_none. intros ev Hin.
        destruct (poll_loop_events env tid fuel 0 0%Z ev)
          as [->|[[u ->]|[c ->]]]; [rewrite E; exact Hin| | |];
          reflexivity. }
      destruct (poll_loop_finishes env tid fuel Ht Hf)
        as [o' [t' [tr' [E' Fin]]]].
      rewrite E in E'. injection E' as <- <- <-.
      destruct Fin as [[v ->]|[e ->]]; rewrite S; cbn [snd].
      * exists (CallUpload (path file) :: CallCreate url :: ltr),
          (Unlink (path file)).
        split; [reflexivity|]. split; [now left|exact L].
      * exists (CallUpload (path file) :: CallCreate url :: ltr),
          (UnlinkSync (path file)).
        split; [reflexivity|]. split; [now right|exact L].
    + destruct S as [err ->]. cbn [snd].
      exists [CallUpload (path file); CallCreate url],
        (UnlinkSync (path file)).
      split; [reflexivity|]. split; [now right|reflexivity].
  - destruct S as [err ->]. cbn [snd].
    exists [CallUpload (path file)], (UnlinkSync (path file)).
    split; [reflexivity|]. split; [now right|reflexivity].
Qed.

Lemma file_is_deleted_once_and_last_witness :
  exists front deletion,
    snd (upload_handler Scenario.greeting 61 (Some Sample.clip) 0%Z)
      = (front ++ [deletion])%list /\
    (deletion = Unlink (path Sample.clip) \/
     deletion = UnlinkSync (path Sample.clip)) /\
    count is_deletion front = 0.
Proof.
  apply (file_is_deleted_once_and_last Scenario.greeting 61 Sample.clip).
  - intros i. simpl. lia.
  - lia.
  - discriminate.
Defined.

End UploadExtras.

(** ** The story resolver and the generate handler *)

Section StoryExtras.
Import Js Eff Story Generate UploadTrace.

(** The resolver reads the text through its lowercase form and through
    the test of its length against 10 only. *)
Lemma resolve_depends (toLowerCase : string -> string) (u u' : string)
    (resp : CorpusResp) (r : Rand) :
  toLowerCase u = toLowerCase u' ->
  (10 <? js_length u) = (10 <? js_length u') ->
  resolve toLowerCase u resp r = resolve toLowerCase u' resp r.
Proof.
  intros H L. unfold resolve, extract_keywords, extract_words.
  rewrite !guard_is_length, H, L. reflexivity.
Qed.

(** X6.  The generate handler always answers.  It calls the speech
    provider exactly once, with the resolved story, and it queries the
    corpus, before that, exactly when the transcript yields a keyword.
    The answer is 200 with the story when the provider's answer is a
    success, and 500 with the error code [generation_failed]
    otherwise. *)
Theorem generate_handler_always_answers (env : Env)
    (body_text : option string) (t : Z) :
  let keywords := resolve_keywords (toLowerCase env) body_text in
  let story :=
    resolve_story (toLowerCase env) body_text (corpus env) (random env) in
  exists r,
    generate_handler env body_text t
      = (Val r, t,
         ((if 0 <? List.length keywords then [CallCorpus] else [])
            ++ [CallMurf story])%list) /\
    match murf_resp env with
    | OkJson _ =>
        code r = 200 /\
        Pipeline.lookup "story" (body r) = Some (of_opt story)
    | _ =>
        code r = 500 /\
        Pipeline.lookup "error" (body r)
          = Some (JString "generation_failed")
    end.
Proof.
  cbv zeta. unfold generate_handler, resolve_story.
  rewrite <- (resolve_keywords_any (toLowerCase env) body_text
                (corpus env) (random env)).
  destruct (resolve (toLowerCase env) (userText_of body_text) (corpus env)
              (random env)) as [keywords story]. cbn [fst snd].
  unfold narrate, generate_catch, try_catch, bind, emit, ret, throw.
  destruct (0 <? List.length keywords);
    destruct (murf_resp env) as [e|st txt|j];
    try (eexists; split; [reflexivity|split; reflexivity]);
    destruct (truthy (audioFile j));
    try (eexists; split; [reflexivity|split; reflexivity]);
    destruct (truthy (audioContent j));
    eexists; (split; [reflexivity|split; reflexivity]).
Qed.

(** X7.  The synthesized story names every keyword it was built from,
    and it is longer than the 50 characters a corpus text has to
    exceed. *)
Theorem template_names_every_keyword (keywords : list string) :
  50 < String.length (template keywords) /\
  50 < js_length (template keywords) /\
  forall k, In k keywords -> includes (template keywords) k = true.
Proof.
  unfold template. split; [|split].
  - rewrite length_append.
    assert (String.length skeleton_0 = 77) by reflexivity. lia.
  - rewrite js_length_append.
    assert (js_length skeleton_0 = 77) by reflexivity. lia.
  - intros k Hin. apply includes_app_r, includes_app_l.
    now apply includes_join.
Qed.

Lemma template_names_every_keyword_witness :
  includes (template ["unicorn"; "forest"]) "forest" = true.
Proof.
  apply (proj2 (proj2 (template_names_every_keyword ["unicorn"; "forest"]))).
  simpl. right. left. reflexivity.
Defined.

(** X8.  Stripping tags only removes: the result is never longer than
    the text, a text without a tag is left as it is, and stripping a
    second time changes nothing. *)
Theorem strip_tags_only_removes_tags (s : string) :
  String.length (strip_tags s) <= String.length s /\
  js_length (strip_tags s) <= js_length s /\
  strip_tags (strip_tags s) = strip_tags s /\
  (has_tag s = false -> strip_tags s = s).
Proof.
  split; [apply strip_from_length|split; [apply strip_from_js_length|split]].
  - apply strip_tags_fixed, strip_tags_no_tag.
  - apply strip_tags_fixed.
Qed.

Lemma strip_tags_only_removes_tags_witness :
  strip_tags "5 > 4 and 2 < 3" = "5 > 4 and 2 < 3".
Proof.
  apply (proj2 (proj2 (proj2
           (strip_tags_only_removes_tags "5 > 4 and 2 < 3")))).
  reflexivity.
Defined.

(** X9.  When the text selected from the corpus is longer than 50
    characters and has no tag, the story is that text, trimmed, unless
    it is all whitespace. *)
Theorem tag_free_corpus_text_is_kept (toLowerCase : string -> string)
    (body_text : option string) (data : list Entry) (r : Rand) :
  let keywords := resolve_keywords toLowerCase body_text in
  let chosen := extract toLowerCase data keywords r in
  keywords <> [] ->
  50 < js_length chosen ->
  has_tag chosen = false ->
  trim chosen <> "" ->
  resolve_story toLowerCase body_text (RespOk data) r = Some (trim chosen).
Proof.
  intros keywords chosen Hk Hlen Htag Htrim.
  destruct (keywords_need_long_text toLowerCase body_text Hk) as [G [K P]].
  fold keywords in K. unfold resolve_story.
  rewrite (resolve_with_keywords toLowerCase _ (RespOk data) r G P), <- K.
  cbn [snd Stated.selected]. fold chosen.
  rewrite (strip_tags_fixed chosen Htag).
  apply Nat.ltb_lt in Hlen. rewrite Hlen.
  replace (String.eqb (trim chosen) "") with false; [reflexivity|].
  symmetry. apply String.eqb_neq. exact Htrim.
Qed.

Lemma tag_free_corpus_text_is_kept_witness :
  resolve_story Sample.engine (Some Sample.dragons) (RespOk Corpus.padded)
    Sample.half
  = Some "Deep in the hills, three dragons kept watch over a sleeping village.".
Proof.
  apply (tag_free_corpus_text_is_kept Sample.engine
           (Some Sample.dragons) Corpus.padded Sample.half).
  - vm_compute. discriminate.
  - vm_compute. lia.
  - vm_compute. reflexivity.
  - vm_compute. discriminate.
Defined.

(** X10.  The story depends on the transcript only through the
    lowercase form of its trimmed text and through whether the trimmed
    text is longer than 10 characters: two transcripts that agree on
    both, as two that differ in the case of ASCII letters or in
    surrounding whitespace do, get the same keywords and the same
    story. *)
Theorem story_ignores_case_and_padding (toLowerCase : string -> string)
    (t t' : string) (resp : CorpusResp) (r : Rand) :
  toLowerCase (trim t) = toLowerCase (trim t') ->
  (10 <? js_length (trim t)) = (10 <? js_length (trim t')) ->
  resolve_keywords toLowerCase (Some t)
  = resolve_keywords toLowerCase (Some t') /\
  resolve_story toLowerCase (Some t) resp r
  = resolve_story toLowerCase (Some t') resp r.
Proof.
  intros H L.
  assert (R : forall resp' r',
             resolve toLowerCase (userText_of (Some t)) resp' r'
             = resolve toLowerCase (userText_of (Some t')) resp' r').
  { intros resp' r'. rewrite !userText_of_some.
    now apply resolve_depends. }
  unfold resolve_keywords, resolve_story. now rewrite !R.
Qed.

Lemma story_ignores_case_and_padding_witness :
  resolve_keywords Sample.engine (Some "  Tell me about DRAGONS and Castles ")
  = resolve_keywords Sample.engine (Some Sample.dragons) /\
  resolve_story Sample.engine (Some "  Tell me about DRAGONS and Castles ")
    (RespOk Corpus.marked_up) Sample.half
  = resolve_story Sample.engine (Some Sample.dragons)
      (RespOk Corpus.marked_up) Sample.half.
Proof.
  apply (story_ignores_case_and_padding Sample.engine
           "  Tell me about DRAGONS and Castles " Sample.dragons
           (RespOk Corpus.marked_up) Sample.half).
  - vm_compute. reflexivity.
  - vm_compute. reflexivity.
Defined.

(** X11.  The story is empty in one case only: the trimmed transcript is
    longer than 10 characters and none of its tokens is a keyword.  In
    every other case, with the random number in its range, the story is
    a non-empty string. *)
Theorem story_is_empty_only_without_keywords
    (toLowerCase : string -> string) (body_text : option string)
    (resp : CorpusResp) (r : Rand) :
  in_unit_interval r ->
  (exists s, resolve_story toLowerCase body_text resp r = Some s) /\
  (resolve_story toLowerCase body_text resp r = Some "" <->
   10 < js_length (userText_of body_text) /\
   extract_keywords toLowerCase (userText_of body_text) = []).
Proof.
  intros Hr. unfold resolve_story, resolve.
  set (u := userText_of body_text).
  destruct (negb (String.eqb u "") && (10 <? js_length u)) eqn:G.
  - assert (L : 10 < js_length u).
    { apply andb_true_iff in G. destruct G as [_ G]. now apply Nat.ltb_lt. }
    destruct (extract_keywords toLowerCase u) as [|k ks] eqn:K.
    + cbn. split; [now eexists|]. split; [now split|reflexivity].
    + change (0 <? List.length (k :: ks)) with true. cbv iota.
      destruct (query_corpus toLowerCase resp (k :: ks) r) as [s b].
      destruct (negb b || String.eqb s "") eqn:Q; cbn [snd].
      * split; [now eexists|]. split.
        -- intros E. injection E as E.
           now apply template_nonempty in E.
        -- intros [_ E]. discriminate E.
      * split; [now eexists|]. split.
        -- intros E. injection E as ->.
           apply orb_false_iff in Q. destruct Q as [_ Q]. discriminate Q.
        -- intros [_ E]. discriminate E.
  - cbn [snd].
    destruct (nth_error_in_bounds fallbackStories
                (random_index r (List.length fallbackStories)))
      as [s [E Hin]].
    { apply random_index_lt; [exact Hr|simpl; lia]. }
    rewrite E. split; [now eexists|]. split.
    + intros E'. injection E' as ->.
      pose proof fallback_nonempty as F. rewrite Forall_forall in F.
      now elim (F "" Hin).
    + intros [L _]. rewrite (long_is_nonempty u L) in G. discriminate G.
Qed.

Lemma story_is_empty_only_without_keywords_witness :
  (exists s, resolve_story Sample.engine (Some "à ça là où") FetchThrows
               Sample.half = Some s) /\
  (resolve_story Sample.engine (Some "à ça là où") FetchThrows Sample.half
   = Some "" <->
   10 < js_length (userText_of (Some "à ça là où")) /\
   extract_keywords Sample.engine (userText_of (Some "à ça là où")) = []).
Proof.
  apply (story_is_empty_only_without_keywords Sample.engine
           (Some "à ça là où") FetchThrows Sample.half).
  unfold in_unit_interval. cbn. lia.
Defined.

End StoryExtras.

(** ** The page *)

Section ClientExtras.
Import Js Eff Client.

Variable env : Env.

Lemma play_on_element_run (src : AudioSrc) (ui : Ui) :
  play_on_element env src ui =
  if has_audio_element env
  then (Val tt,
        mkUi (recording ui) (transcript ui) (story ui) (loading ui)
             (Some src),
        [Play src])
  else (Val tt, ui, []).
Proof.
  unfold play_on_element, try_catch, bind, emit, ret, throw.
  destruct (has_audio_element env); [|reflexivity].
  destruct (play_rejection env); reflexivity.
Qed.

Lemma or_string_nonempty (a : option string) (b : string) :
  b <> "" -> or_string a b <> "".
Proof.
  unfold or_string, or_else. intros Hb.
  destruct a as [s|]; simpl; [|exact Hb].
  destruct s; simpl; [exact Hb|discriminate].
Qed.

Lemma or_string_truthy (a : option string) (b : string) :
  truthy a = true -> a = Some (or_string a b).
Proof.
  unfold or_string, or_else. intros H. rewrite H.
  destruct a; [reflexivity|discriminate H].
Qed.

Hypothesis decoder_settles : forall b, atob env b <> OutOfFuel.

(** The audio block changes nothing but the audio element, and it
    throws only before touching it. *)
Lemma play_answer_run (genJson : GenJson) (ui : Ui) :
  exists o a tr,
    play_answer env genJson ui
      = (o,
         mkUi (recording ui) (transcript ui) (story ui) (loading ui) a,
         tr) /\
    (o = Val tt \/ (exists e, o = Exc e /\ a = audio_src ui)) /\
    posts_generate tr = false.
Proof.
  assert (Same : (Val tt, ui, @nil cevent)
                 = (Val tt,
                    mkUi (recording ui) (transcript ui) (story ui)
                         (loading ui) (audio_src ui), []))
    by (destruct ui; reflexivity).
  unfold play_answer.
  destruct (truthy (g_audioUrl genJson)).
  - rewrite play_on_element_run. destruct (has_audio_element env).
    + do 3 eexists. split; [reflexivity|]. split; [now left|reflexivity].
    + do 3 eexists. split; [exact Same|]. split; [now left|reflexivity].
  - destruct (truthy (g_base64_audio genJson)).
    + unfold bind, await, base64ToBlob.
      destruct (atob env (or_string (g_base64_audio genJson) ""))
        as [binary|e|] eqn:A.
      * rewrite play_on_element_run. destruct (has_audio_element env).
        -- do 3 eexists. split; [reflexivity|].
           split; [now left|reflexivity].
        -- do 3 eexists. rewrite app_nil_r. split; [exact Same|].
           split; [now left|reflexivity].
      * exists (Exc e), (audio_src ui), []. split.
        -- destruct ui; reflexivity.
        -- split; [right; now exists e|reflexivity].
      * now elim (decoder_settles _ A).
    + do 3 eexists. split; [exact Same|]. split; [now left|reflexivity].
Qed.

(** What the page does with a response: it completes or throws
    cleanly, keeps the transcript and the two flags, posts nothing, and,
    when the response is JSON, leaves a story that is not empty. *)
Lemma show_answer_run (genResp : GenResp) (ui : Ui) :
  r_json genResp <> OutOfFuel ->
  exists o ui1 tr,
    show_answer env genResp ui = (o, ui1, tr) /\
    (o = Val tt \/ (exists e, o = Exc e /\ audio_src ui1 = audio_src ui)) /\
    recording ui1 = recording ui /\ loading ui1 = loading ui /\
    transcript ui1 = transcript ui /\
    posts_generate tr = false /\
    (includes (or_string (r_content_type genResp) "") "application/json"
       = true -> o = Val tt -> story ui1 <> "").
Proof.
  intros Hj. unfold show_answer.
  destruct (includes (or_string (r_content_type genResp) "")
              "application/json").
  - unfold bind, await, setStory.
    destruct (r_json genResp) as [genJson|e|]; [| |now elim Hj].
    + match goal with
      | |- context [play_answer env genJson ?u] =>
          destruct (play_answer_run genJson u)
            as [o [a [tr [E [O P]]]]]; rewrite E
      end.
      cbn [recording transcript story loading audio_src] in *.
      do 3 eexists. split; [reflexivity|].
      cbn [recording transcript story loading audio_src app].
      repeat split; try exact P.
      * destruct O as [->|[e [-> ->]]]; [now left|right; now exists e].
      * intros _ _. apply or_string_nonempty. discriminate.
    + do 3 eexists. split; [reflexivity|].
      repeat split; try reflexivity; [right; now exists e|].
      intros _ H. discriminate H.
  - destruct (includes (or_string (r_content_type genResp) "") "audio/").
    + unfold bind, setStory. rewrite play_on_element_run.
      destruct (has_audio_element env);
        do 3 eexists; (split; [reflexivity|]);
        repeat split; try reflexivity; try (now left);
        intros H; discriminate H.
    + unfold setStory. do 3 eexists. split; [reflexivity|].
      repeat split; try reflexivity; try (now left).
      intros H; discriminate H.
Qed.

Hypothesis generate_settles : forall text, generate env text <> OutOfFuel.
Hypothesis json_settles :
  forall text r, generate env text = Val r -> r_json r <> OutOfFuel.

(** What the page does with the answer to the upload. *)
Lemma after_upload_run (uploadJson : UploadJson) (ui : Ui) :
  exists o ui1 tr,
    after_upload env uploadJson ui = (o, ui1, tr) /\
    (o = Val tt \/ (exists e, o = Exc e /\ audio_src ui1 = audio_src ui)) /\
    recording ui1 = recording ui /\
    ((forall text r, generate env text = Val r ->
        includes (or_string (r_content_type r) "") "application/json" = true) ->
     o = Val tt -> story ui1 <> "").
Proof.
  unfold after_upload.
  destruct (truthy (u_error uploadJson)).
  - do 3 eexists. split; [reflexivity|].
    split; [right; eexists; now split|].
    split; [reflexivity|]. intros _ H. discriminate H.
  - unfold bind, setTranscript, setLoading, setStory, emit, await.
    set (text := or_string (u_transcript uploadJson) "").
    destruct (generate env text) as [genResp|e|] eqn:G;
      [| |now elim (generate_settles _ G)].
    + match goal with
      | |- context [show_answer env genResp ?u] =>
          destruct (show_answer_run genResp u (json_settles _ _ G))
            as [o [ui1 [tr [E [O [R [_ [_ [_ J]]]]]]]]]; rewrite E
      end.
      cbn [recording transcript story loading audio_src] in *.
      do 3 eexists. split; [reflexivity|].
      split; [exact O|]. split; [exact R|].
      intros Hct Ho. apply J; [now apply (Hct text)|exact Ho].
    + do 3 eexists. split; [reflexivity|].
      split; [right; exists e; now split|].
      split; [reflexivity|]. intros _ H. discriminate H.
Qed.

Hypothesis capture_settles : capture env <> OutOfFuel.
Hypothesis upload_settles : forall clip, upload env clip <> OutOfFuel.

(** The [try] block as a whole. *)
Lemma attempt_run (ui : Ui) :
  exists o ui1 tr,
    attempt env ui = (o, ui1, tr) /\
    (o = Val tt \/ (exists e, o = Exc e /\ audio_src ui1 = audio_src ui)) /\
    ((forall text r, generate env text = Val r ->
        includes (or_string (r_content_type r) "") "application/json" = true) ->
     o = Val tt -> story ui1 <> "").
Proof.
  unfold attempt, bind, await, setTranscript, emit.
  destruct (capture env) as [clip|e|] eqn:C; [| |now elim capture_settles].
  - destruct (upload env clip) as [uploadJson|e|] eqn:U;
      [| |now elim (upload_settles _ U)].
    + match goal with
      | |- context [after_upload env uploadJson ?u] =>
          destruct (after_upload_run uploadJson u)
            as [o [ui1 [tr [E [O [_ J]]]]]]; rewrite E
      end.
      cbn [audio_src] in O.
      do 3 eexists. split; [reflexivity|]. split; [exact O|exact J].
    + do 3 eexists. split; [reflexivity|].
      split; [right; exists e; now split|]. intros _ H. discriminate H.
  - do 3 eexists. split; [reflexivity|].
    split; [right; exists e; now split|]. intros _ H. discriminate H.
Qed.

(** One click, in terms of what the [try] block did. *)
Lemma recordAndSend_run (ui : Ui) :
  exists o ui1 tr,
    attempt env (mkUi true "Listening..." "—" (loading ui) (audio_src ui))
      = (o, ui1, tr) /\
    ((o = Val tt /\
      recordAndSend env ui
        = (Val tt,
           mkUi false (transcript ui1) (story ui1) false (audio_src ui1),
           tr) /\
      ((forall text r, generate env text = Val r ->
          includes (or_string (r_content_type r) "") "application/json"
            = true) ->
       story ui1 <> "")) \/
     (exists e,
        o = Exc e /\
        recordAndSend env ui
          = (Val tt,
             mkUi false ("Error: " ++ String_of e) "—" false (audio_src ui),
             (tr ++ [ConsoleError e])%list))).
Proof.
  destruct (attempt_run
              (mkUi true "Listening..." "—" (loading ui) (audio_src ui)))
    as [o [ui1 [tr [E [O J]]]]].
  exists o, ui1, tr. split; [exact E|].
  unfold recordAndSend.
  cbv beta delta [bind finally try_catch recover settle
                  setRecording setTranscript setStory setLoading emit].
  cbn [recording transcript story loading audio_src].
  rewrite E.
  destruct O as [->|[e [-> A]]].
  - left. split; [reflexivity|]. split.
    + cbn [recording transcript story loading audio_src app].
      rewrite ?app_nil_r. reflexivity.
    + intros H. now apply J.
  - right. exists e. split; [reflexivity|].
    cbn [recording transcript story loading audio_src app] in *.
    rewrite A, ?app_nil_r. reflexivity.
Qed.

End ClientExtras.

Section ClientClaims.
Import Js Eff Client.

(** X12.  When every promise the page awaits settles, one click always
    completes without an uncaught error, and it ends with both the
    [recording] and the [loading] flag off, so the button is enabled
    again whatever happened. *)
Theorem click_always_settles (env : Env) (ui : Ui) :
  settles env ->
  exists ui' tr,
    recordAndSend env ui = (Val tt, ui', tr) /\
    recording ui' = false /\ loading ui' = false.
Proof.
  intros [Hc [Hu [Hg [Hj Ha]]]].
  destruct (recordAndSend_run env Ha Hg Hj Hc Hu ui)
    as [o [ui1 [tr [_ [[_ [R _]]|[e [_ R]]]]]]];
    do 2 eexists; (split; [exact R|split; reflexivity]).
Qed.

Lemma click_always_settles_witness :
  exists ui' tr,
    recordAndSend Scenario.both_shapes initial = (Val tt, ui', tr) /\
    recording ui' = false /\ loading ui' = false.
Proof.
  apply (click_always_settles Scenario.both_shapes initial).
  unfold settles. simpl. repeat split; try discriminate.
  intros text r H. injection H as <-. discriminate.
Defined.

(** X13.  Whatever throws inside the [try] block, the page shows
    ["Error: "] followed by the error as the transcript, resets the story
    to the dash, logs the error, and leaves the audio element with the
    source it had before the click. *)
Theorem failure_is_shown_and_audio_kept (env : Env) (ui ui1 : Ui)
    (e : exn) (tr : list cevent) :
  settles env ->
  attempt env (mkUi true "Listening..." "—" (loading ui) (audio_src ui))
    = (Exc e, ui1, tr) ->
  recordAndSend env ui
    = (Val tt,
       mkUi false ("Error: " ++ String_of e) "—" false (audio_src ui),
       (tr ++ [ConsoleError e])%list).
Proof.
  intros [Hc [Hu [Hg [Hj Ha]]]] E.
  destruct (recordAndSend_run env Ha Hg Hj Hc Hu ui)
    as [o [ui2 [tr2 [E2 [[O _]|[e2 [O R]]]]]]];
    rewrite E in E2; injection E2 as <- <- <-.
  - discriminate O.
  - injection O as <-. exact R.
Qed.

Lemma failure_is_shown_and_audio_kept_witness :
  recordAndSend Scenario.no_microphone initial
  = (Val tt,
     mkUi false "Error: NotAllowedError: Permission denied" "—" false None,
     [ConsoleError (Thrown "NotAllowedError: Permission denied")]).
Proof.
  apply (failure_is_shown_and_audio_kept Scenario.no_microphone initial
           (mkUi true "Listening..." "—" false None)
           (Thrown "NotAllowedError: Permission denied") []).
  - unfold settles. simpl. repeat split; try discriminate.
  - reflexivity.
Defined.

(** One click once the clip is recorded and the upload answered, in
    terms of what the page does with that answer. *)
Lemma upload_answer_run (env : Env) (ui : Ui) (clip : string)
    (uploadJson : UploadJson) :
  capture env = Val clip ->
  upload env clip = Val uploadJson ->
  recordAndSend env ui =
  match after_upload env uploadJson
          (mkUi true "Uploading for transcription..." "—" (loading ui)
             (audio_src ui)) with
  | (Val _, ui1, tr) =>
      (Val tt,
       mkUi false (transcript ui1) (story ui1) false (audio_src ui1),
       PostUpload clip :: tr)
  | (Exc e, ui1, tr) =>
      (Val tt,
       mkUi false ("Error: " ++ String_of e) "—" false (audio_src ui1),
       PostUpload clip :: (tr ++ [ConsoleError e])%list)
  | (OutOfFuel, ui1, tr) => (OutOfFuel, ui1, PostUpload clip :: tr)
  end.
Proof.
  intros C U.
  unfold recordAndSend, attempt.
  cbv beta delta [bind finally try_catch recover settle await throw
                  setRecording setTranscript setStory setLoading emit].
  cbn [recording transcript story loading audio_src].
  rewrite C. cbv beta iota. rewrite U. cbv beta iota.
  destruct (after_upload env uploadJson _) as [[o ui1] tr].
  destruct o as [[]|e|]; cbn [app recording transcript story loading audio_src];
    rewrite ?app_nil_r; reflexivity.
Qed.

(** The same once the story request is answered with JSON, in terms of
    what the audio block does. *)
Lemma json_answer_run (env : Env) (ui : Ui) (clip : string)
    (uploadJson : UploadJson) (genResp : GenResp) (genJson : GenJson) :
  capture env = Val clip ->
  upload env clip = Val uploadJson ->
  truthy (u_error uploadJson) = false ->
  let text := or_string (u_transcript uploadJson) "" in
  generate env text = Val genResp ->
  includes (or_string (r_content_type genResp) "") "application/json" = true ->
  r_json genResp = Val genJson ->
  recordAndSend env ui =
  match play_answer env genJson
          (mkUi true (or_string (Some text) "(no transcript)")
             (or_string (g_story genJson) "(no story returned)") true
             (audio_src ui)) with
  | (Val _, ui1, tr) =>
      (Val tt,
       mkUi false (transcript ui1) (story ui1) false (audio_src ui1),
       PostUpload clip :: PostGenerate text :: tr)
  | (Exc e, ui1, tr) =>
      (Val tt,
       mkUi false ("Error: " ++ String_of e) "—" false (audio_src ui1),
       PostUpload clip :: PostGenerate text :: (tr ++ [ConsoleError e])%list)
  | (OutOfFuel, ui1, tr) =>
      (OutOfFuel, ui1, PostUpload clip :: PostGenerate text :: tr)
  end.
Proof.
  intros C U T text G I J.
  rewrite (upload_answer_run env ui clip uploadJson C U).
  unfold after_upload. rewrite T. fold text.
  cbv beta delta [bind await setTranscript setLoading setStory emit].
  cbn [recording transcript story loading audio_src].
  rewrite G. cbv beta iota.
  unfold show_answer. rewrite I.
  cbv beta delta [bind await setStory]. rewrite J. cbv beta iota.
  cbn [recording transcript story loading audio_src].
  destruct (play_answer env genJson _) as [[o ui1] tr].
  destruct o as [[]|e|]; reflexivity.
Qed.

(** X14.  When the answer to the upload carries an error, the page
    reports its detail, or the error code when there is no detail, and
    never asks for a story. *)
Theorem refused_upload_is_reported (env : Env) (ui : Ui) (clip : string)
    (uploadJson : UploadJson) :
  capture env = Val clip ->
  upload env clip = Val uploadJson ->
  truthy (u_error uploadJson) = true ->
  let message :=
    or_string (u_detail uploadJson)
      (or_string (u_error uploadJson) "Upload failed") in
  recordAndSend env ui
    = (Val tt,
       mkUi false ("Error: Error: " ++ message) "—" false (audio_src ui),
       [PostUpload clip; ConsoleError (JsError message)]) /\
  posts_generate (snd (recordAndSend env ui)) = false.
Proof.
  intros C U T message.
  rewrite (upload_answer_run env ui clip uploadJson C U).
  unfold after_upload. rewrite T. split; reflexivity.
Qed.

Lemma refused_upload_is_reported_witness :
  posts_generate
    (snd (recordAndSend
            (mkEnv (Val "webm-bytes")
               (fun _ => Val (mkUploadJson (Some "no_file") None None))
               (fun _ => Exc (Thrown "unused")) (fun _ => Val "") true None)
            initial)) = false.
Proof.
  apply (refused_upload_is_reported
           (mkEnv (Val "webm-bytes")
              (fun _ => Val (mkUploadJson (Some "no_file") None None))
              (fun _ => Exc (Thrown "unused")) (fun _ => Val "") true None)
           initial "webm-bytes" (mkUploadJson (Some "no_file") None None));
    reflexivity.
Defined.

(** X15.  When the JSON answer to the story request carries an audio
    URL, the page plays that URL and never decodes the inline audio,
    even if there is some; a refusal of the browser to play is swallowed.
    The story shown is the one returned, or the notice
    ["(no story returned)"] when it is empty or missing. *)
Theorem audio_url_wins_over_inline_audio (env : Env) (ui : Ui)
    (clip url : string) (uploadJson : UploadJson) (genResp : GenResp)
    (genJson : GenJson) :
  capture env = Val clip ->
  upload env clip = Val uploadJson ->
  truthy (u_error uploadJson) = false ->
  let text := or_string (u_transcript uploadJson) "" in
  generate env text = Val genResp ->
  includes (or_string (r_content_type genResp) "") "application/json" = true ->
  r_json genResp = Val genJson ->
  g_audioUrl genJson = Some url -> url <> "" ->
  recordAndSend env ui
    = (Val tt,
       mkUi false (or_string (Some text) "(no transcript)")
         (or_string (g_story genJson) "(no story returned)") false
         (if has_audio_element env then Some (SrcUrl url) else audio_src ui),
       (PostUpload clip :: PostGenerate text ::
        if has_audio_element env then [Play (SrcUrl url)] else [])%list).
Proof.
  intros C U T text G I J A Hurl.
  assert (Tu : truthy (g_audioUrl genJson) = true)
    by (rewrite A; simpl; destruct url; [now elim Hurl|reflexivity]).
  assert (Ou : or_string (g_audioUrl genJson) "" = url).
  { pose proof (or_string_truthy _ "" Tu) as H. rewrite A in H at 1.
    now injection H as <-. }
  rewrite (json_answer_run env ui clip uploadJson genResp genJson
             C U T G I J).
  fold text. unfold play_answer. rewrite Tu, Ou, play_on_element_run.
  destruct (has_audio_element env); reflexivity.
Qed.

Lemma audio_url_wins_over_inline_audio_witness :
  recordAndSend Scenario.both_shapes initial
  = (Val tt,
     mkUi false "a story please" "Once" false
       (Some (SrcUrl "https://murf.example/a.mp3")),
     [PostUpload "webm-bytes"; PostGenerate "a story please";
      Play (SrcUrl "https://murf.example/a.mp3")]).
Proof.
  apply (audio_url_wins_over_inline_audio Scenario.both_shapes initial
           "webm-bytes" "https://murf.example/a.mp3"
           (mkUploadJson None None (Some "a story please"))
           (mkGenResp (Some "application/json")
              (Val (mkGenJson (Some "Once")
                      (Some "https://murf.example/a.mp3") (Some "%%%")))
              [] "")
           (mkGenJson (Some "Once") (Some "https://murf.example/a.mp3")
              (Some "%%%")));
    try reflexivity.
  discriminate.
Defined.

Lemma charCodeAt_codes (binary : string) (i : nat) :
  charCodeAt binary i = nth_error (Bytes.codes binary) i.
Proof.
  unfold charCodeAt, Bytes.codes. revert i.
  induction binary as [|c r IH]; intros i.
  - destruct i; reflexivity.
  - destruct i as [|i]; [reflexivity|]. simpl. apply IH.
Qed.

Lemma codes_are_bytes (binary : string) :
  Forall (fun n => n < 256) (Bytes.codes binary).
Proof.
  unfold Bytes.codes. induction binary as [|c r IH]; simpl; constructor.
  - apply nat_ascii_bounded.
  - exact IH.
Qed.

Lemma store_after (pre rest : list nat) (b v : nat) :
  store (pre ++ b :: rest) (List.length pre) v = (pre ++ v :: rest)%list.
Proof. induction pre as [|x pre IH]; simpl; [reflexivity|now rewrite IH]. Qed.

(** The loop invariant: before round [i] the buffer holds the first [i]
    codes followed by zeros. *)
Lemma fill_invariant (binary : string) (rounds : nat) :
  forall done todo,
    Bytes.codes binary = (done ++ todo)%list ->
    List.length todo = rounds ->
    fill binary (String.length binary) rounds (List.length done)
      (done ++ repeat 0 rounds)
    = Bytes.codes binary.
Proof.
  assert (Len : List.length (Bytes.codes binary) = String.length binary).
  { unfold Bytes.codes. rewrite length_map.
    induction binary as [|c r IH]; simpl; [reflexivity|now rewrite IH]. }
  induction rounds as [|rounds IH]; intros done todo E L.
  - destruct todo; [|discriminate L]. simpl. now rewrite E.
  - destruct todo as [|v todo]; [discriminate L|].
    cbn [fill].
    replace (List.length done <? String.length binary) with true.
    2:{ symmetry. apply Nat.ltb_lt. rewrite <- Len, E, length_app.
        simpl. lia. }
    assert (V : to_uint8 (charCodeAt binary (List.length done)) = v).
    { rewrite charCodeAt_codes, E, nth_error_app2 by lia.
      rewrite Nat.sub_diag. cbn [nth_error to_uint8]. apply Nat.mod_small.
      pose proof (codes_are_bytes binary) as F. rewrite E in F.
      apply Forall_app in F. destruct F as [_ F].
      now inversion F. }
    rewrite V. cbn [repeat]. rewrite store_after.
    replace (done ++ v :: repeat 0 rounds)%list
      with ((done ++ [v]) ++ repeat 0 rounds)%list
      by (now rewrite <- app_assoc).
    replace (S (List.length done)) with (List.length (done ++ [v]))
      by (rewrite length_app; simpl; lia).
    apply (IH (done ++ [v])%list todo).
    + now rewrite <- app_assoc.
    + now injection L.
Qed.

(** X16.  [base64ToBlob] turns the decoded binary string into a blob of
    exactly its character codes, in order and of the given type, and it
    throws what the decoder throws. *)
Theorem base64ToBlob_keeps_every_byte (atob : string -> outcome string)
    (base64 mime : string) :
  match atob base64 with
  | Val binary =>
      base64ToBlob atob base64 mime
        = Val (mkBlob (Bytes.codes binary) mime) /\
      List.length (Bytes.codes binary) = String.length binary /\
      Forall (fun n => n < 256) (Bytes.codes binary)
  | Exc e => base64ToBlob atob base64 mime = Exc e
  | OutOfFuel => base64ToBlob atob base64 mime = OutOfFuel
  end.
Proof.
  unfold base64ToBlob. destruct (atob base64) as [binary|e|]; try reflexivity.
  split; [|split].
  - f_equal. f_equal.
    apply (fill_invariant binary (String.length binary) [] (Bytes.codes binary)).
    + reflexivity.
    + unfold Bytes.codes. rewrite length_map.
      induction binary as [|c r IH]; simpl; [reflexivity|now rewrite IH].
  - unfold Bytes.codes. rewrite length_map.
    induction binary as [|c r IH]; simpl; [reflexivity|now rewrite IH].
  - apply codes_are_bytes.
Qed.

End ClientClaims.

(** ** The page and the server together *)

Section PipelineExtras.
Import Js Eff Story Pipeline.

(** Every answer of the generate handler is JSON, with the fields the
    page reads as follows. *)
Lemma generate_reply (env : Generate.Env) (body_text : option string) :
  exists r,
    fst (fst (Generate.generate_handler env body_text 0%Z)) = Val r /\
    content_type r = "application/json" /\
    match Generate.murf_resp env with
    | OkJson j =>
        text_field "story" (body r)
          = resolve_story (Generate.toLowerCase env) body_text
              (Generate.corpus env) (Generate.random env) /\
        text_field "audioUrl" (body r)
          = (if truthy (Generate.audioFile j)
             then Generate.audioFile j else None) /\
        text_field "base64_audio" (body r)
          = (if truthy (Generate.audioFile j) then None
             else if truthy (Generate.audioContent j)
                  then Generate.audioContent j else None)
    | _ =>
        text_field "story" (body r) = None /\
        text_field "audioUrl" (body r) = None /\
        text_field "base64_audio" (body r) = None
    end.
Proof.
  unfold Generate.generate_handler, resolve_story.
  destruct (resolve (Generate.toLowerCase env) (userText_of body_text)
              (Generate.corpus env) (Generate.random env))
    as [keywords story]. cbn [snd].
  unfold Generate.narrate, Generate.generate_catch, try_catch, bind, emit,
    ret, throw.
  assert (S : forall rest,
             text_field "story" (("story", Generate.of_opt story) :: rest)
             = story) by (intros rest; destruct story; reflexivity).
  destruct (0 <? List.length keywords);
    destruct (Generate.murf_resp env) as [e|st txt|j];
    try (eexists; split; [reflexivity|split; [reflexivity|]];
         repeat split; reflexivity);
    destruct (truthy (Generate.audioFile j)) eqn:F;
    try (eexists; split; [reflexivity|split; [reflexivity|]];
         split; [apply S|];
         split; [destruct (Generate.audioFile j); [reflexivity|discriminate F]
                |reflexivity]);
    destruct (truthy (Generate.audioContent j)) eqn:C;
    eexists; (split; [reflexivity|split; [reflexivity|]]);
    (split; [apply S|]); (split; [reflexivity|]);
    try reflexivity;
    destruct (Generate.audioContent j); [reflexivity|discriminate C
                                        |reflexivity|discriminate C].
Qed.

Lemma or_string_self (s : string) : Client.or_string (Some s) "" = s.
Proof. destruct s; reflexivity. Qed.

(** The page's view of a story request served by the handler. *)
Lemma generate_served (w : World) (text : string) :
  exists r,
    Client.generate (page w) text = Val (generate_view w r) /\
    fst (fst (Generate.generate_handler (generation w) (Some text) 0%Z))
      = Val r /\
    includes
      (Client.or_string (Client.r_content_type (generate_view w r)) "")
      "application/json" = true.
Proof.
  destruct (generate_reply (generation w) (Some text)) as [r [E [Ct _]]].
  exists r. split; [|split; [exact E|]].
  - cbn [page Client.generate]. rewrite E. reflexivity.
  - cbn [generate_view Client.r_content_type]. rewrite Ct. reflexivity.
Qed.

(** A transcript of at most 10 characters gets one of the fallback
    stories. *)
Lemma short_text_story (toLowerCase : string -> string) (text : string)
    (resp : CorpusResp) (r : Rand) :
  in_unit_interval r -> js_length text <= 10 ->
  exists s, resolve_story toLowerCase (Some text) resp r = Some s /\
            In s fallbackStories /\ s <> "".
Proof.
  intros Hr Hlen.
  assert (G : negb (String.eqb (userText_of (Some text)) "") &&
              (10 <? js_length (userText_of (Some text))) = false).
  { apply short_guard. rewrite userText_of_some.
    pose proof (trim_length text). lia. }
  destruct (nth_error_in_bounds fallbackStories
              (random_index r (List.length fallbackStories)))
    as [s [E Hin]].
  { apply random_index_lt; [exact Hr|simpl; lia]. }
  exists s. split; [|split; [exact Hin|]].
  - unfold resolve_story, resolve. rewrite G. exact E.
  - pose proof fallback_nonempty as F. rewrite Forall_forall in F.
    now apply F.
Qed.

(** X17.  When the upload handler answers 500, the page shows the
    handler's detail after ["Error: Error: "], resets the story, leaves
    the audio element alone and sends no story request. *)
Theorem failed_upload_reaches_the_page (w : World) (ui : Client.Ui)
    (clip : string) (err : exn) :
  microphone w = Val clip ->
  fst (fst (Upload.upload_handler (transcription w) (fuel w)
              (Some (stored w clip)) 0%Z))
    = Val (json_response 500
             [("error", "upload_failed"); ("detail", String_of err)]) ->
  let message := Client.or_string (Some (String_of err)) "upload_failed" in
  click w ui
    = (Val tt,
       Client.mkUi false ("Error: Error: " ++ message) "—" false
         (Client.audio_src ui),
       [Client.PostUpload clip; Client.ConsoleError (JsError message)]).
Proof.
  intros Hm Hs message. unfold click.
  rewrite (upload_answer_run (page w) ui clip
             (upload_view
                (json_response 500
                   [("error", "upload_failed");
                    ("detail", String_of err)]))).
  - reflexivity.
  - exact Hm.
  - cbn [page Client.upload]. rewrite Hs. reflexivity.
Qed.

Lemma failed_upload_reaches_the_page_witness :
  click (Scenario.browser Sample.unauthorized Scenario.murf_with_url)
    Client.initial
  = (Val tt,
     Client.mkUi false
       "Error: Error: Error: AssemblyAI upload failed: 401 unauthorized"
       "—" false None,
     [Client.PostUpload "webm-bytes";
      Client.ConsoleError
        (JsError "Error: AssemblyAI upload failed: 401 unauthorized")]).
Proof.
  apply (failed_upload_reaches_the_page
           (Scenario.browser Sample.unauthorized Scenario.murf_with_url)
           Client.initial "webm-bytes"
           (JsError "AssemblyAI upload failed: 401 unauthorized"));
    reflexivity.
Defined.

(** The click once the upload handler has answered 200 with a
    transcript, in terms of the generate handler's answer. *)
Lemma transcribed_click (w : World) (ui : Client.Ui) (clip text : string) :
  microphone w = Val clip ->
  fst (fst (Upload.upload_handler (transcription w) (fuel w)
              (Some (stored w clip)) 0%Z))
    = Val (json_response 200 [("transcript", text)]) ->
  exists r,
    fst (fst (Generate.generate_handler (generation w) (Some text) 0%Z))
      = Val r /\
    click w ui =
    match Client.play_answer (page w)
            (Client.mkGenJson (text_field "story" (body r))
               (text_field "audioUrl" (body r))
               (text_field "base64_audio" (body r)))
            (Client.mkUi true (Client.or_string (Some text) "(no transcript)")
               (Client.or_string (text_field "story" (body r))
                  "(no story returned)")
               true (Client.audio_src ui)) with
    | (Val _, ui1, tr) =>
        (Val tt,
         Client.mkUi false (Client.transcript ui1) (Client.story ui1) false
           (Client.audio_src ui1),
         Client.PostUpload clip :: Client.PostGenerate text :: tr)
    | (Exc e, ui1, tr) =>
        (Val tt,
         Client.mkUi false ("Error: " ++ String_of e) "—" false
           (Client.audio_src ui1),
         Client.PostUpload clip :: Client.PostGenerate text ::
           (tr ++ [Client.ConsoleError e])%list)
    | (OutOfFuel, ui1, tr) =>
        (OutOfFuel, ui1,
         Client.PostUpload clip :: Client.PostGenerate text :: tr)
    end.
Proof.
  intros Hm Hs.
  destruct (generate_served w text) as [r [G [E I]]].
  exists r. split; [exact E|]. unfold click.
  pose proof (json_answer_run (page w) ui clip
                (upload_view (json_response 200 [("transcript", text)]))
                (generate_view w r)
                (Client.mkGenJson (text_field "story" (body r))
                   (text_field "audioUrl" (body r))
                   (text_field "base64_audio" (body r)))) as R.
  cbn [upload_view json_response body lookup String.eqb Ascii.eqb
       Bool.eqb Client.u_transcript Client.u_error truthy] in R.
  rewrite or_string_self in R.
  apply R.
  - exact Hm.
  - cbn [page Client.upload]. rewrite Hs. reflexivity.
  - reflexivity.
  - exact G.
  - exact I.
  - reflexivity.
Qed.

(** X18.  When the speech provider refuses or fails, the page does not
    report an error: it shows the transcript, puts the notice
    ["(no story returned)"] in the story box and plays nothing. *)
Theorem failed_narration_shows_no_story (w : World) (ui : Client.Ui)
    (clip text : string) :
  microphone w = Val clip ->
  fst (fst (Upload.upload_handler (transcription w) (fuel w)
              (Some (stored w clip)) 0%Z))
    = Val (json_response 200 [("transcript", text)]) ->
  (forall j, Generate.murf_resp (generation w) <> OkJson j) ->
  click w ui
    = (Val tt,
       Client.mkUi false (Client.or_string (Some text) "(no transcript)")
         "(no story returned)" false (Client.audio_src ui),
       [Client.PostUpload clip; Client.PostGenerate text]).
Proof.
  intros Hm Hs Hmurf.
  destruct (transcribed_click w ui clip text Hm Hs) as [r [E ->]].
  destruct (generate_reply (generation w) (Some text)) as [r' [E' [_ F]]].
  rewrite E in E'. injection E' as <-.
  destruct (Generate.murf_resp (generation w)) as [e|st txt|j];
    [| |now elim (Hmurf j)];
    destruct F as [-> [-> ->]]; reflexivity.
Qed.

Lemma failed_narration_shows_no_story_witness :
  click (Scenario.browser Scenario.greeting Scenario.murf_refuses)
    Client.initial
  = (Val tt,
     Client.mkUi false "hi there" "(no story returned)" false None,
     [Client.PostUpload "webm-bytes"; Client.PostGenerate "hi there"]).
Proof.
  apply (failed_narration_shows_no_story
           (Scenario.browser Scenario.greeting Scenario.murf_refuses)
           Client.initial "webm-bytes" "hi there").
  - reflexivity.
  - vm_compute. reflexivity.
  - intros j. discriminate.
Defined.

(** X19.  When the upload is transcribed and the speech provider returns
    an audio URL, the page shows the transcript and the resolved story,
    and plays that URL; a resolved story that is empty is shown as the
    notice ["(no story returned)"]. *)
Theorem narrated_story_reaches_the_page (w : World) (ui : Client.Ui)
    (clip text url : string) (j : Generate.MurfJson) :
  microphone w = Val clip ->
  fst (fst (Upload.upload_handler (transcription w) (fuel w)
              (Some (stored w clip)) 0%Z))
    = Val (json_response 200 [("transcript", text)]) ->
  Generate.murf_resp (generation w) = OkJson j ->
  Generate.audioFile j = Some url -> url <> "" ->
  click w ui
    = (Val tt,
       Client.mkUi false (Client.or_string (Some text) "(no transcript)")
         (Client.or_string
            (resolve_story (Generate.toLowerCase (generation w))
               (Some text) (Generate.corpus (generation w))
               (Generate.random (generation w)))
            "(no story returned)")
         false
         (if audio_element w then Some (Client.SrcUrl url)
          else Client.audio_src ui),
       (Client.PostUpload clip :: Client.PostGenerate text ::
        if audio_element w then [Client.Play (Client.SrcUrl url)] else [])%list).
Proof.
  intros Hm Hs Hmurf Hfile Hurl.
  assert (T : truthy (Some url) = true)
    by (simpl; destruct url; [now elim Hurl|reflexivity]).
  destruct (transcribed_click w ui clip text Hm Hs) as [r [E ->]].
  destruct (generate_reply (generation w) (Some text)) as [r' [E' [_ F]]].
  rewrite E in E'. injection E' as <-.
  rewrite Hmurf, Hfile, T in F. destruct F as [-> [-> ->]].
  unfold Client.play_answer.
  cbn [Client.g_audioUrl Client.g_base64_audio]. rewrite T.
  rewrite play_on_element_run.
  replace (Client.or_string (Some url) "") with url
    by (symmetry; apply or_string_self).
  cbn [page Client.has_audio_element].
  destruct (audio_element w); reflexivity.
Qed.

Lemma narrated_story_reaches_the_page_witness :
  click (Scenario.browser Scenario.greeting Scenario.murf_with_url)
    Client.initial
  = (Val tt,
     Client.mkUi false "hi there"
       (Client.or_string
          (resolve_story Sample.engine (Some "hi there") RespNotOk
             Sample.half)
          "(no story returned)")
       false (Some (Client.SrcUrl "https://murf.example/a.mp3")),
     [Client.PostUpload "webm-bytes"; Client.PostGenerate "hi there";
      Client.Play (Client.SrcUrl "https://murf.example/a.mp3")]).
Proof.
  apply (narrated_story_reaches_the_page
           (Scenario.browser Scenario.greeting Scenario.murf_with_url)
           Client.initial "webm-bytes" "hi there"
           "https://murf.example/a.mp3"
           (Generate.mkMurfJson (Some "https://murf.example/a.mp3") None)).
  - reflexivity.
  - vm_compute. reflexivity.
  - reflexivity.
  - reflexivity.
  - discriminate.
Defined.

(** X20.  A clip whose transcript has at most 10 characters, silence
    included, ends with one of the static fallback stories in the story
    box when the speech provider returns an audio URL. *)
Theorem short_clip_shows_a_fallback_story (w : World) (ui : Client.Ui)
    (clip text url : string) (j : Generate.MurfJson) :
  microphone w = Val clip ->
  fst (fst (Upload.upload_handler (transcription w) (fuel w)
              (Some (stored w clip)) 0%Z))
    = Val (json_response 200 [("transcript", text)]) ->
  js_length text <= 10 ->
  in_unit_interval (Generate.random (generation w)) ->
  Generate.murf_resp (generation w) = OkJson j ->
  Generate.audioFile j = Some url -> url <> "" ->
  exists ui' tr,
    click w ui = (Val tt, ui', tr) /\
    In (Client.story ui') fallbackStories /\
    Client.transcript ui' = Client.or_string (Some text) "(no transcript)".
Proof.
  intros Hm Hs Hlen Hr Hmurf Hfile Hurl.
  assert (T : truthy (Some url) = true)
    by (simpl; destruct url; [now elim Hurl|reflexivity]).
  destruct (short_text_story (Generate.toLowerCase (generation w)) text
              (Generate.corpus (generation w))
              (Generate.random (generation w)) Hr Hlen)
    as [s [Es [Hin Hs']]].
  destruct (transcribed_click w ui clip text Hm Hs) as [r [E ->]].
  destruct (generate_reply (generation w) (Some text)) as [r' [E' [_ F]]].
  rewrite E in E'. injection E' as <-.
  rewrite Hmurf, Hfile, T, Es in F. destruct F as [-> [-> ->]].
  unfold Client.play_answer.
  cbn [Client.g_audioUrl Client.g_base64_audio]. rewrite T.
  rewrite play_on_element_run.
  assert (S : Client.or_string (Some s) "(no story returned)" = s)
    by (destruct s; [now elim Hs'|reflexivity]).
  rewrite S.
  destruct (Client.has_audio_element (page w));
    do 2 eexists; (split; [reflexivity|]); split; [exact Hin|reflexivity
                                                  |exact Hin|reflexivity].
Qed.

Lemma short_clip_shows_a_fallback_story_witness :
  exists ui' tr,
    click (Scenario.browser Scenario.privet Scenario.murf_with_url)
      Client.initial = (Val tt, ui', tr) /\
    In (Client.story ui') fallbackStories /\
    Client.transcript ui'
    = Client.or_string (Some "Привет") "(no transcript)".
Proof.
  apply (short_clip_shows_a_fallback_story
           (Scenario.browser Scenario.privet Scenario.murf_with_url)
           Client.initial "webm-bytes" "Привет" "https://murf.example/a.mp3"
           (Generate.mkMurfJson (Some "https://murf.example/a.mp3") None)).
  - reflexivity.
  - vm_compute. reflexivity.
  - vm_compute. lia.
  - unfold in_unit_interval. cbn. lia.
  - reflexivity.
  - reflexivity.
  - discriminate.
Defined.

(** X21.  With timers that never fire early and a browser whose
    promises settle, one click against the server always completes, with
    both flags off and a story box that is not empty: it holds a story,
    the notice ["(no story returned)"], or the dash after an error. *)
Theorem story_box_is_never_left_empty (w : World) (ui : Client.Ui) :
  Upload.timing_ok (transcription w) -> 61 <= fuel w ->
  microphone w <> OutOfFuel ->
  (forall b, decoder w b <> OutOfFuel) ->
  exists ui' tr,
    click w ui = (Val tt, ui', tr) /\
    Client.story ui' <> "" /\
    Client.recording ui' = false /\ Client.loading ui' = false.
Proof.
  intros Ht Hf Hm Hd.
  assert (Json : forall text r,
             Client.generate (page w) text = Val r ->
             includes (Client.or_string (Client.r_content_type r) "")
               "application/json" = true /\
             Client.r_json r <> OutOfFuel).
  { intros text r H.
    destruct (generate_served w text) as [r' [G [_ I]]].
    rewrite G in H. injection H as <-. split; [exact I|discriminate]. }
  assert (Up : forall clip, Client.upload (page w) clip <> OutOfFuel).
  { intros clip. cbn [page Client.upload].
    destruct (upload_handler_run (transcription w) Ht (fuel w)
                (stored w clip) Hf) as [r [t [tr [E _]]]].
    rewrite E. discriminate. }
  assert (Gen : forall text, Client.generate (page w) text <> OutOfFuel).
  { intros text. destruct (generate_served w text) as [r [G _]].
    rewrite G. discriminate. }
  destruct (recordAndSend_run (page w) Hd Gen
              (fun text r H => proj2 (Json text r H)) Hm Up ui)
    as [o [ui1 [tr [_ [[_ [R J]]|[e [_ R]]]]]]].
  - do 2 eexists. split; [exact R|].
    split; [|split; reflexivity].
    apply J. intros text r H. exact (proj1 (Json text r H)).
  - do 2 eexists. split; [exact R|].
    split; [discriminate|split; reflexivity].
Qed.

Lemma story_box_is_never_left_empty_witness :
  exists ui' tr,
    click (Scenario.browser Sample.silence Scenario.murf_refuses)
      Client.initial = (Val tt, ui', tr) /\
    Client.story ui' <> "" /\
    Client.recording ui' = false /\ Client.loading ui' = false.
Proof.
  apply (story_box_is_never_left_empty
           (Scenario.browser Sample.silence Scenario.murf_refuses)
           Client.initial).
  - intros i. simpl. lia.
  - simpl. lia.
  - discriminate.
  - intros b. discriminate.
Defined.

End PipelineExtras.
